(** * HashVer: dotted version strings as order-preserving integers

    A shallow embedding of [src/hashver/hashver.py] (class [HashVer]:
    [__init__], [get_num], [get_version_str]) and the properties its
    specification states about it.

    Modelling conventions.
    - A Python [int] is a [Z] (unbounded, two's complement for the bit
      operations: [<<] is [Z.shiftl], [>>] is [Z.shiftr], [&] is [Z.land]).
      The interpreter's optional limit on the length of int/str conversions
      is not modelled.
    - A Python [str] is a [string]; the characters are the 7-bit ASCII ones.
      [py_int] follows CPython 3's [int(s)] in base 10 on such strings:
      surrounding ASCII whitespace, an optional sign, decimal digits with
      single underscores between them.
    - Raising is a [result]: [Return v] or [Raise e].  Builtin exceptions
      (subclasses of [Exception]) and [HashVerException] (a subclass of
      [BaseException], so that [except Exception] does not catch it) are
      kept apart. *)

From Stdlib Require Import ZArith List String Ascii Bool Lia.
From Stdlib Require Import DecimalString DecimalFacts DecimalPos DecimalN DecimalZ.
Import ListNotations.

Local Open Scope Z_scope.

(** ** Exceptions and results *)

(** The builtin exceptions the three methods can meet. *)
Inductive builtin : Type :=
| ValueError_literal (s : string) (* int(s): invalid literal for int() with base 10 *)
| ValueError_shift                (* num << k with k < 0: negative shift count *)
| TypeError_operand.              (* int & float: unsupported operand type(s) for & *)

(** The message of a [HashVerException], by the place that builds it.
    The two messages that quote the interpreter's text of a builtin
    exception keep the format arguments; the other two are rendered. *)
Inductive message : Type :=
| msg_component (comp : string) (err : builtin)  (* lines 54-57 *)
| msg_last (comp : string) (err : builtin)       (* lines 66-70 *)
| msg_count (text : string)                      (* lines 75-77 *)
| msg_compat (text : string)                     (* line 110 *)
| msg_parsing (err : builtin).                   (* lines 91 and 115 *)

Inductive exn : Type :=
| Builtin (e : builtin)
| HashVerException (msg : message).

Inductive result (A : Type) : Type :=
| Return (a : A)
| Raise (e : exn).

Arguments Return {A} a.
Arguments Raise {A} e.

Definition bind {A B : Type} (r : result A) (k : A -> result B) : result B :=
  match r with
  | Return a => k a
  | Raise e => Raise e
  end.

Notation "x <- r ;; k" := (bind r (fun x => k))
  (at level 61, r at next level, right associativity).

(** [try: r except Exception as err: raise HashVerException(msg err)].
    A [HashVerException] raised inside passes through untouched. *)
Definition except_Exception {A : Type} (r : result A) (msg : builtin -> message)
  : result A :=
  match r with
  | Raise (Builtin err) => Raise (HashVerException (msg err))
  | _ => r
  end.

(** ** Strings: split, join, int() and str() *)

(** [s.split(sep)] for a one-character separator. *)
Fixpoint split (sep : ascii) (s : string) : list string :=
  match s with
  | EmptyString => [EmptyString]
  | String c s' =>
      if Ascii.eqb c sep then EmptyString :: split sep s'
      else match split sep s' with
           | h :: t => String c h :: t
           | [] => [String c EmptyString]
           end
  end.

(** [sep.join(l)]. *)
Definition join (sep : string) (l : list string) : string := String.concat sep l.

(** C's [Py_ISSPACE]: tab, newline, vertical tab, form feed, carriage
    return, space. *)
Definition Py_ISSPACE (c : ascii) : bool :=
  let n := N_of_ascii c in
  (((9 <=? n) && (n <=? 13)) || (n =? 32))%N.

Definition digit_value (c : ascii) : option Z :=
  let n := Z.of_N (N_of_ascii c) in
  if (48 <=? n) && (n <=? 57) then Some (n - 48) else None.

Fixpoint lstrip (s : string) : string :=
  match s with
  | String c s' => if Py_ISSPACE c then lstrip s' else s
  | EmptyString => EmptyString
  end.

(** The run of digits and underscores of an integer literal: no two
    underscores in a row, none at the end.  Returns the value and what
    follows the run. *)
Fixpoint scan_digits (s : string) (acc : Z) (prev_underscore : bool)
  : option (Z * string) :=
  match s with
  | EmptyString => if prev_underscore then None else Some (acc, EmptyString)
  | String c s' =>
      match digit_value c with
      | Some d => scan_digits s' (10 * acc + d) false
      | None =>
          if Ascii.eqb c "_" then
            if prev_underscore then None else scan_digits s' acc true
          else if prev_underscore then None else Some (acc, s)
      end
  end.

(** [int(s)]: whitespace, sign, a digit first, the run, whitespace, end. *)
Definition py_int (s : string) : result Z :=
  let s1 := lstrip s in
  let '(sign, s2) :=
    match s1 with
    | String "+" r => (1, r)
    | String "-" r => (-1, r)
    | _ => (1, s1)
    end in
  match s2 with
  | String c _ =>
      match digit_value c with
      | Some _ =>
          match scan_digits s2 0 false with
          | Some (n, rest) =>
              match lstrip rest with
              | EmptyString => Return (sign * n)
              | _ => Raise (Builtin (ValueError_literal s))
              end
          | None => Raise (Builtin (ValueError_literal s))
          end
      | None => Raise (Builtin (ValueError_literal s))
      end
  | EmptyString => Raise (Builtin (ValueError_literal s))
  end.

(** [str(n)] and ['%d' % n] of an int. *)
Definition py_str (n : Z) : string := NilZero.string_of_int (Z.to_int n).

(** [str(l)] of a list of ints. *)
Definition str_list (l : list Z) : string :=
  ("[" ++ join ", " (map py_str l) ++ "]")%string.

(** ** The class HashVer *)

Record HashVer : Type := { bits_per_component : list Z }.

(** The default argument of [__init__]. *)
Definition default_bpc : list Z := [16; 16; 16].

(** [[int(x) for x in l]]: the first failure propagates. *)
Fixpoint int_each (l : list string) : result (list Z) :=
  match l with
  | [] => Return []
  | x :: rest =>
      v <- py_int x ;;
      vs <- int_each rest ;;
      Return (v :: vs)
  end.

(** [HashVer(bits_per_component)], lines 31-36: a string is split on dots
    and its tokens converted, with no handler around the conversion; a
    list is stored as it is. *)
Definition __init__ (bits_per_component : string + list Z) : result HashVer :=
  match bits_per_component with
  | inl s =>
      l <- int_each (split "." s) ;;
      Return {| bits_per_component := l |}
  | inr l => Return {| bits_per_component := l |}
  end.

(** Lines 50-59: every component but the last. *)
Fixpoint parse_init (comps : list string) : result (list Z) :=
  match comps with
  | [] => Return []
  | comp :: rest =>
      v <- except_Exception (py_int comp) (msg_component comp) ;;
      vs <- parse_init rest ;;
      Return (v :: vs)
  end.

(** Lines 49-72: the list [vpc].  [components] is never empty, so
    [components[-1]] is its last element. *)
Definition parse_components (version_str : string) : result (list Z) :=
  let components := split "." version_str in
  vpc <- parse_init (removelast components) ;;
  let last_comp := last components EmptyString in
  v <- except_Exception (py_int (hd EmptyString (split "-" last_comp)))
                        (msg_last last_comp) ;;
  Return (vpc ++ [v])%list.

(** Lines 80-87: the loop over [zip(vpc, bpc)], with its flag [shift]. *)
Fixpoint accumulate (pairs : list (Z * Z)) (num : Z) (shift : bool) : result Z :=
  match pairs with
  | [] => Return num
  | (cur_val, num_of_bits) :: rest =>
      if shift then
        if num_of_bits <? 0 then Raise (Builtin ValueError_shift)
        else accumulate rest (Z.shiftl num num_of_bits + cur_val) true
      else accumulate rest (num + cur_val) true
  end.

Definition count_text (version_str : string) (bpc : list Z) : string :=
  (version_str ++ " must have as many dot separated components as "
   ++ str_list bpc)%string.

Definition get_num (self : HashVer) (version_str : string) : result Z :=
  except_Exception
    (let bpc := bits_per_component self in
     vpc <- parse_components version_str ;;
     if negb (Nat.eqb (List.length bpc) (List.length vpc)) then
       Raise (HashVerException (msg_count (count_text version_str bpc)))
     else accumulate (combine vpc bpc) 0 false)
    msg_parsing.

(** Lines 104-107: the loop over [reversed(bpc)].  With a negative width
    [2 ** num_of_bits] is a float and [&] raises. *)
Fixpoint extract (rbpc : list Z) (mut_num : Z) (components : list string)
  : result (Z * list string) :=
  match rbpc with
  | [] => Return (mut_num, components)
  | num_of_bits :: rest =>
      if num_of_bits <? 0 then Raise (Builtin TypeError_operand)
      else
        let max_val := 2 ^ num_of_bits - 1 in
        extract rest (Z.shiftr mut_num num_of_bits)
                (py_str (Z.land mut_num max_val) :: components)
  end.

Definition compat_text (num : Z) (bpc : list Z) : string :=
  (py_str num ++ " is not compatible with " ++ str_list bpc)%string.

Definition get_version_str (self : HashVer) (num : Z) : result string :=
  except_Exception
    (let bpc := bits_per_component self in
     r <- extract (rev bpc) num [] ;;
     let '(mut_num, components) := r in
     if negb (mut_num =? 0) then
       Raise (HashVerException (msg_compat (compat_text num bpc)))
     else Return (join "." components))
    msg_parsing.

(** The object that [HashVer(l)] returns for a list [l]. *)
Definition hv (l : list Z) : HashVer := {| bits_per_component := l |}.

(** ** Closed forms of the two loops *)

Definition total_bits (ws : list Z) : Z := fold_right Z.add 0 ws.

(** [v_1 * 2^(w_2+...+w_n) + v_2 * 2^(w_3+...+w_n) + ... + v_n]. *)
Fixpoint weighted (vs ws : list Z) : Z :=
  match vs, ws with
  | v :: vs', _ :: ws' => v * 2 ^ total_bits ws' + weighted vs' ws'
  | _, _ => 0
  end.

(** Component [i] of [x]: the [w_i] bits above the [w_(i+1)+...+w_n]
    lowest ones. *)
Fixpoint fields (x : Z) (ws : list Z) : list Z :=
  match ws with
  | [] => []
  | w :: ws' => (x / 2 ^ total_bits ws') mod 2 ^ w :: fields x ws'
  end.

(** A component value fits its width.  In [Z], [2 ^ w] is 0 for a negative
    [w]: nothing fits a negative width. *)
Definition fits (v w : Z) : Prop := 0 <= v < 2 ^ w.

(** The accumulation of step 5 read as a left fold: the first value is
    added to 0, every later pair shifts by its own width and adds. *)
Definition shift_add (vs ws : list Z) : Z :=
  match combine vs ws with
  | [] => 0
  | (v1, _) :: rest =>
      fold_left (fun num p => Z.shiftl num (snd p) + fst p) rest (0 + v1)
  end.

(** Comparing two lists of component values, most significant first. *)
Fixpoint component_wise_compare (a b : list Z) : comparison :=
  match a, b with
  | [], [] => Eq
  | [], _ :: _ => Lt
  | _ :: _, [] => Gt
  | x :: a', y :: b' =>
      match x ?= y with
      | Eq => component_wise_compare a' b'
      | c => c
      end
  end.

(** [V] with the hyphen-delimited suffix removed from its last component. *)
Definition stripped_components (V : string) : list string :=
  let components := split "." V in
  (removelast components
   ++ [hd EmptyString (split "-" (last components EmptyString))])%list.

Definition strip_suffix (V : string) : string :=
  join "." (stripped_components V).

(** [part] occurs in [text]. *)
Definition names (text part : string) : Prop :=
  exists pre post, text = (pre ++ part ++ post)%string.

(** ** Predicates on strings and components *)

(** The character [c] occurs in [s]. *)
Fixpoint occurs (c : ascii) (s : string) : bool :=
  match s with
  | EmptyString => false
  | String a s' => Ascii.eqb a c || occurs c s'
  end.

(** The integer parser accepts [c] with value [v]. *)
Definition parses (c : string) (v : Z) : Prop := py_int c = Return v.

(** The integer parser rejects [c]. *)
Definition rejected (c : string) : Prop := forall v, py_int c <> Return v.

(** [c] parses as a non-negative integer. *)
Definition nonneg_literal (c : string) : Prop :=
  exists v, py_int c = Return v /\ 0 <= v.

(** The exception is one of the two raised for a component that is not
    numeric (lines 59 and 72). *)
Definition parse_error (e : exn) : Prop :=
  exists c err,
    e = HashVerException (msg_component c err)
    \/ e = HashVerException (msg_last c err).

(** The value of a digit sequence read left to right from [acc]. *)
Fixpoint uint_value (d : Decimal.uint) (acc : Z) : Z :=
  match d with
  | Decimal.Nil => acc
  | Decimal.D0 d' => uint_value d' (10 * acc)
  | Decimal.D1 d' => uint_value d' (10 * acc + 1)
  | Decimal.D2 d' => uint_value d' (10 * acc + 2)
  | Decimal.D3 d' => uint_value d' (10 * acc + 3)
  | Decimal.D4 d' => uint_value d' (10 * acc + 4)
  | Decimal.D5 d' => uint_value d' (10 * acc + 5)
  | Decimal.D6 d' => uint_value d' (10 * acc + 6)
  | Decimal.D7 d' => uint_value d' (10 * acc + 7)
  | Decimal.D8 d' => uint_value d' (10 * acc + 8)
  | Decimal.D9 d' => uint_value d' (10 * acc + 9)
  end.

Definition is_digit (c : ascii) : bool :=
  match digit_value c with Some _ => true | None => false end.

Fixpoint all_digits (s : string) : bool :=
  match s with
  | EmptyString => true
  | String c s' => is_digit c && all_digits s'
  end.

(** A decimal numeral as [str] writes a non-negative int: digits only, at
    least one, no leading zero except for ["0"] itself. *)
Definition canonical_numeral (s : string) : bool :=
  match s with
  | EmptyString => false
  | String c s' => all_digits s && (negb (Ascii.eqb c "0") || String.eqb s' "")
  end.

(** ** Printing and uncaught exceptions *)

(** What [except Exception as err] binds [err] to in the example run: a
    failed [assert] or a builtin exception. *)
Inductive caught : Type :=
| AssertionError
| Caught (e : builtin).

(** One call of [print].  The two lines that quote the interpreter's text
    of an exception keep the format arguments. *)
Inductive printed : Type :=
| Line (text : string)
| ErrorLine (ver : string) (err : builtin)                     (* line 235 *)
| FailedLine (ver : string) (num : Z) (ver_str : string) (err : caught).
                                                               (* lines 166-168, 197-199 *)

(** What ends a run of the script early. *)
Inductive uncaught : Type :=
| Uncaught (e : exn)
| IndexError            (* sys.argv[index + 1] past the end *)
| UnboundLocalError.    (* a local read before its first assignment *)

(** A run: what was printed, and either a value or the uncaught exception. *)
Inductive run (A : Type) : Type :=
| Done (out : list printed) (a : A)
| Abort (out : list printed) (e : uncaught).

Arguments Done {A} out a.
Arguments Abort {A} out e.

Definition then_run {A B : Type} (r : run A) (k : A -> run B) : run B :=
  match r with
  | Done out a =>
      match k a with
      | Done out' b => Done (out ++ out') b
      | Abort out' e => Abort (out ++ out') e
      end
  | Abort out e => Abort out e
  end.

Definition print (p : printed) : run unit := Done [p] tt.

Definition output {A : Type} (r : run A) : list printed :=
  match r with
  | Done out _ => out
  | Abort out _ => out
  end.

(** ** The command line: main *)

(** [l.index(x)]: the first position of [x], if any. *)
Fixpoint index (x : string) (l : list string) : option nat :=
  match l with
  | [] => None
  | y :: rest =>
      if String.eqb y x then Some 0%nat
      else option_map S (index x rest)
  end.

(** [del l[i]] for a position [i] of [l]. *)
Fixpoint del (i : nat) (l : list string) : list string :=
  match l, i with
  | [], _ => []
  | _ :: rest, O => rest
  | y :: rest, S j => y :: del j rest
  end.

(** [s.isdigit()] on ASCII strings. *)
Definition isdigit (s : string) : bool :=
  match s with
  | EmptyString => false
  | _ => all_digits s
  end.

Definition newline : string := String "010" EmptyString.

(** Lines 210-214. *)
Definition usage (executable argv0 : string) : string :=
  ("Usage:" ++ newline ++ " " ++ executable ++ " " ++ argv0
   ++ " X1 X2 ... Xn [--bpc version_str] " ++ newline
   ++ "Where each Xi must be a number or a version string and bpc"
   ++ " represents bits per component which indicates format of"
   ++ " versioning in use.")%string.

(** Lines 229-233: the text after the colon. *)
Definition convert (hob : HashVer) (ver : string) : result string :=
  if isdigit ver then
    n <- py_int ver ;;
    get_version_str hob n
  else
    n <- get_num hob ver ;;
    Return (py_str n).

(** Lines 227-235: the handler catches [Exception] only. *)
Fixpoint convert_all (hob : HashVer) (args : list string) : run unit :=
  match args with
  | [] => Done [] tt
  | ver :: rest =>
      match convert hob ver with
      | Return text =>
          then_run (print (Line (ver ++ " : " ++ text)))
                   (fun _ => convert_all hob rest)
      | Raise (Builtin err) =>
          then_run (print (ErrorLine ver err))
                   (fun _ => convert_all hob rest)
      | Raise (HashVerException m) => Abort [] (Uncaught (HashVerException m))
      end
  end.

(** Lines 226-235, for the value [bpc] chosen by lines 218-224. *)
Definition main_with (bpc : string + list Z) (args : list string) : run unit :=
  match __init__ bpc with
  | Return hob => convert_all hob args
  | Raise e => Abort [] (Uncaught e)
  end.

(** [main()] on [sys.argv = argv], with [sys.executable]. *)
Definition main (executable : string) (argv : list string) : run unit :=
  if Nat.eqb (List.length argv) 1 then
    print (Line (usage executable (hd EmptyString argv)))
  else
    match index "--bpc" argv with
    | Some i =>
        match nth_error argv (i + 1) with
        | Some bpc => main_with (inl bpc) (tl (del i (del i argv)))
        | None => Abort [] IndexError
        end
    | None => main_with (inr default_bpc) (tl argv)
    end.

(** The line printed for an argument whose conversion succeeds. *)
Definition converted (hob : HashVer) (ver : string) (p : printed) : Prop :=
  exists text, convert hob ver = Return text
               /\ p = Line (ver ++ " : " ++ text).

(** ** The example run: HashVerTests *)

Record HashVerTests : Type := { passed : Z; failed : Z }.

(** The locals [num] and [ver_str] of a test method; [None] before the
    first assignment. *)
Record locals : Type := { num : option Z; ver_str : option string }.

Definition unbound : locals := {| num := None; ver_str := None |}.

(** [str(bpc)] for the two kinds of profile argument. *)
Definition str_bpc (bpc : string + list Z) : string :=
  match bpc with
  | inl s => s
  | inr l => str_list l
  end.

(** The handler of lines 165-169 (and 196-200): [prev] stays as it is. *)
Definition on_failure (ver : string) (err : caught) (prev : Z) (loc : locals)
  (self : HashVerTests) : run (Z * (locals * HashVerTests)) :=
  match num loc, ver_str loc with
  | Some n, Some s =>
      then_run (print (FailedLine ver n s err))
               (fun _ => Done [] (prev, (loc, {| passed := passed self;
                                                 failed := failed self + 1 |})))
  | _, _ => Abort [] UnboundLocalError
  end.

(** The body of the loop over [builds] (lines 156-169 and 187-200) for one
    build; [expected ver] is the left side of the first [assert].  It
    gives the new values of [prev], of the locals and of the counters. *)
Definition check_build (expected : string -> string) (hob : HashVer)
  (bpc_text : string) (ver : string) (prev : Z) (loc : locals)
  (self : HashVerTests) : run (Z * (locals * HashVerTests)) :=
  then_run
    (print (Line ("Testing " ++ ver ++ " with bpc " ++ bpc_text)))
    (fun _ =>
       match get_num hob ver with
       | Raise (HashVerException m) =>
           Abort [] (Uncaught (HashVerException m))
       | Raise (Builtin e) => on_failure ver (Caught e) prev loc self
       | Return n =>
           let loc1 := {| num := Some n; ver_str := ver_str loc |} in
           match get_version_str hob n with
           | Raise (HashVerException m) =>
               Abort [] (Uncaught (HashVerException m))
           | Raise (Builtin e) => on_failure ver (Caught e) prev loc1 self
           | Return s =>
               let loc2 := {| num := Some n; ver_str := Some s |} in
               if negb (String.eqb (expected ver) s) then
                 on_failure ver AssertionError prev loc2 self
               else if negb (prev <? n) then
                 on_failure ver AssertionError prev loc2 self
               else
                 then_run (print (Line "PASSED"))
                   (fun _ => Done [] (n, (loc2,
                                          {| passed := passed self + 1;
                                             failed := failed self |})))
           end
       end).

(** The loop over [builds] (lines 155 and 186). *)
Fixpoint compare_builds (expected : string -> string) (hob : HashVer)
  (bpc_text : string) (builds : list string) (prev : Z) (loc : locals)
  (self : HashVerTests) : run (locals * HashVerTests) :=
  match builds with
  | [] => Done [] (loc, self)
  | ver :: rest =>
      then_run (check_build expected hob bpc_text ver prev loc self)
        (fun st =>
           compare_builds expected hob bpc_text rest
             (fst st) (fst (snd st)) (snd (snd st)))
  end.

(** The loop over [bpc_list] (lines 152-154 and 183-185). *)
Fixpoint compare_profiles (expected : string -> string)
  (bpc_list : list (string + list Z)) (builds : list string) (loc : locals)
  (self : HashVerTests) : run (locals * HashVerTests) :=
  match bpc_list with
  | [] => Done [] (loc, self)
  | bpc :: rest =>
      match __init__ bpc with
      | Raise e => Abort [] (Uncaught e)
      | Return hob =>
          then_run (compare_builds expected hob (str_bpc bpc) builds 0 loc self)
                   (fun st => compare_profiles expected rest builds (fst st) (snd st))
      end
  end.

Definition four_component_builds : list string :=
  ["6.90.0.21"; "8.13.1260.16"; "8.20.1300.14"; "8.20.1300.20";
   "8.20.1300.24"; "8.21.1310.5"; "8.30.1350.13"; "8.30.1350.19";
   "8.31.1360.8"; "8.40.1400.5"; "8.40.1400.8"; "8.40.1400.11";
   "8.41.1410.5"; "8.42.1410.12"; "8.42.1410.18"; "8.50.1700.5";
   "8.50.1700.11"; "8.51.1800.5"; "8.51.1800.7"; "8.52.1810.4";
   "9.0.0.50"]%string.

Definition semver_builds : list string :=
  ["0.0.1"; "0.5.2"; "0.6.3"; "0.6.4-rc1"; "1.5.1-rc2"; "2.0.2"]%string.

Definition spec_compare_four_component_versions (self : HashVerTests)
  : run HashVerTests :=
  then_run
    (compare_profiles (fun ver => ver)
       [inr [16; 16; 16; 16]; inl "8.8.16.8"%string]
       four_component_builds unbound self)
    (fun st => Done [] (snd st)).

Definition spec_compare_semvers (self : HashVerTests) : run HashVerTests :=
  then_run
    (compare_profiles (fun ver => hd EmptyString (split "-" ver))
       [inr [16; 16; 16]; inl "8.8.16"%string]
       semver_builds unbound self)
    (fun st => Done [] (snd st)).

(** [HashVerTests().run()]. *)
Definition tests_run : run HashVerTests :=
  then_run (spec_compare_four_component_versions {| passed := 0; failed := 0 |})
    (fun self1 =>
       then_run (spec_compare_semvers self1)
         (fun self2 =>
            then_run
              (print (Line ("Passed: " ++ py_str (passed self2)
                            ++ ", Failed: " ++ py_str (failed self2))))
              (fun _ => Done [] self2))).

(** Lines 238-242: the script. *)
Definition script (executable : string) (argv : list string) : run unit :=
  if existsb (String.eqb "test") argv then
    then_run tests_run (fun _ => Done [] tt)
  else main executable argv.

(** The lines of a loop in which every build passes. *)
Definition passed_lines (bpc_text : string) (builds : list string)
  : list printed :=
  flat_map (fun ver =>
              [Line ("Testing " ++ ver ++ " with bpc " ++ bpc_text);
               Line "PASSED"]) builds.


(** The builds are valid under the profile [ws], written canonically, and
    in strictly ascending component-wise order above the values [prev]. *)
Fixpoint ascending (ws : list Z) (prev : list Z) (builds : list string) : Prop :=
  match builds with
  | [] => True
  | V :: rest =>
      exists vs,
        parse_components V = Return vs
        /\ Forall2 fits vs ws
        /\ Forall (fun c => canonical_numeral c = true) (stripped_components V)
        /\ component_wise_compare prev vs = Lt
        /\ ascending ws vs rest
  end.

(** * Lemmas *)

(** Case analysis on the eight bits of a character. *)
Ltac destruct_ascii c := destruct c as [[] [] [] [] [] [] [] []].

(** ** Lists *)

Lemma Forall2_length_eq {A B : Type} (R : A -> B -> Prop) (l1 : list A) (l2 : list B) :
  Forall2 R l1 l2 -> List.length l1 = List.length l2.
Proof.
  induction 1; simpl; congruence.
Qed.

Lemma Forall_tl {A : Type} (P : A -> Prop) (l : list A) :
  Forall P l -> Forall P (tl l).
Proof.
  destruct 1; simpl; auto.
Qed.

Lemma removelast_last_split {A : Type} (l : list A) (d : A) :
  l <> [] -> l = (removelast l ++ [last l d])%list.
Proof.
  intros H. apply app_removelast_last. assumption.
Qed.

Lemma Forall_removelast {A : Type} (P : A -> Prop) (l : list A) :
  Forall P l -> Forall P (removelast l).
Proof.
  induction 1 as [|x l Hx Hl IH]; simpl; [constructor|].
  destruct l; [constructor|]. constructor; assumption.
Qed.

Lemma Forall_last {A : Type} (P : A -> Prop) (l : list A) (d : A) :
  l <> [] -> Forall P l -> P (last l d).
Proof.
  intros Hne H. induction H as [|x l Hx Hl IH]; [congruence|].
  destruct l; simpl; [assumption|]. apply IH. discriminate.
Qed.

Lemma Forall2_snoc_inv {A B : Type} (R : A -> B -> Prop) (l : list A) (a : A) :
  forall l', Forall2 R (l ++ [a]) l' ->
             exists m b, l' = (m ++ [b])%list /\ Forall2 R l m /\ R a b.
Proof.
  induction l as [|x l IH]; intros l' H; simpl in H.
  - inversion H as [|? b ? m Hab Hnil]; subst. inversion Hnil; subst.
    exists [], b. repeat split; [constructor | assumption].
  - inversion H as [|? y ? l0 Hxy Hrest]; subst.
    destruct (IH _ Hrest) as (m & b & -> & Hm & Hb).
    exists (y :: m), b. repeat split; [constructor|]; assumption.
Qed.

Lemma Forall_snd_combine (vs ws : list Z) (P : Z -> Prop) :
  Forall P ws -> Forall (fun p => P (snd p)) (combine vs ws).
Proof.
  intros H. revert vs. induction H as [|w ws Hw _ IH]; intros [|v vs]; simpl;
    constructor; auto.
Qed.

(** ** Arithmetic of the closed forms *)

Lemma total_bits_nonneg (ws : list Z) :
  Forall (fun w => 0 <= w) ws -> 0 <= total_bits ws.
Proof.
  induction 1 as [|w ws Hw _ IH]; simpl; lia.
Qed.

(** Closes [0 < 2 ^ e] when the context shows that [e] is not negative. *)
Ltac pow2_pos :=
  apply Z.pow_pos_nonneg;
  [lia | first [lia | apply total_bits_nonneg; assumption]].

Lemma total_bits_app (ws1 ws2 : list Z) :
  total_bits (ws1 ++ ws2) = total_bits ws1 + total_bits ws2.
Proof.
  induction ws1 as [|w ws1 IH]; simpl; lia.
Qed.

Lemma Forall2_fits_nonneg (vs ws : list Z) :
  Forall2 fits vs ws -> Forall (fun w => 0 <= w) ws.
Proof.
  induction 1 as [|v w vs ws [H0 H1] _ IH]; constructor; auto.
  destruct (Z.neg_nonneg_cases w) as [Hn|]; auto.
  rewrite (Z.pow_neg_r 2 w Hn) in H1. lia.
Qed.

Lemma Forall2_fits_values_nonneg (vs ws : list Z) :
  Forall2 fits vs ws -> Forall (fun v => 0 <= v) vs.
Proof.
  induction 1 as [|v w vs ws [H0 _] _ IH]; constructor; assumption.
Qed.

Lemma weighted_bounds (vs ws : list Z) :
  Forall2 fits vs ws -> 0 <= weighted vs ws < 2 ^ total_bits ws.
Proof.
  induction 1 as [|v w vs ws [H0 H1] Hrest IH]; simpl; [lia|].
  assert (Hw : 0 <= w).
  { destruct (Z.neg_nonneg_cases w) as [Hn|]; auto.
    rewrite (Z.pow_neg_r 2 w Hn) in H1. lia. }
  assert (HT : 0 <= total_bits ws)
    by (apply total_bits_nonneg; eapply Forall2_fits_nonneg; eauto).
  rewrite Z.pow_add_r by assumption.
  assert (0 < 2 ^ total_bits ws) by pow2_pos.
  nia.
Qed.

Lemma fields_length (x : Z) (ws : list Z) :
  List.length (fields x ws) = List.length ws.
Proof.
  induction ws as [|w ws IH]; simpl; congruence.
Qed.

Lemma fields_fit (x : Z) (ws : list Z) :
  Forall (fun w => 0 <= w) ws -> Forall2 fits (fields x ws) ws.
Proof.
  induction 1 as [|w ws Hw _ IH]; simpl; constructor; auto.
  apply Z.mod_pos_bound. pow2_pos.
Qed.

Lemma fields_add_high (ws : list Z) :
  forall a r,
    Forall (fun w => 0 <= w) ws ->
    fields (a * 2 ^ total_bits ws + r) ws = fields r ws.
Proof.
  induction ws as [|w ws IH]; intros a r Hws; simpl; [reflexivity|].
  inversion Hws as [|? ? Hw Hws']; subst.
  assert (HT : 0 <= total_bits ws) by (apply total_bits_nonneg; assumption).
  assert (H2T : 0 < 2 ^ total_bits ws) by pow2_pos.
  assert (H2w : 0 < 2 ^ w) by pow2_pos.
  rewrite Z.pow_add_r by assumption.
  replace (a * (2 ^ w * 2 ^ total_bits ws)) with (a * 2 ^ w * 2 ^ total_bits ws)
    by ring.
  f_equal.
  - rewrite Z.div_add_l by lia.
    rewrite (Z.add_comm (a * 2 ^ w)). apply Z.mod_add. lia.
  - apply IH; assumption.
Qed.

Lemma fields_weighted (vs ws : list Z) :
  Forall2 fits vs ws -> fields (weighted vs ws) ws = vs.
Proof.
  induction 1 as [|v w vs ws [H0 H1] Hrest IH]; simpl; [reflexivity|].
  pose proof (weighted_bounds vs ws Hrest) as HR.
  assert (Hws : Forall (fun w => 0 <= w) ws)
    by (eapply Forall2_fits_nonneg; eauto).
  assert (H2T : 0 < 2 ^ total_bits ws)
    by pow2_pos.
  f_equal.
  - rewrite Z.div_add_l by lia.
    rewrite (Z.div_small (weighted vs ws)) by assumption.
    rewrite Z.add_0_r. apply Z.mod_small. split; assumption.
  - rewrite fields_add_high by assumption. exact IH.
Qed.

Lemma weighted_fields (ws : list Z) :
  Forall (fun w => 0 <= w) ws ->
  forall x, 0 <= x < 2 ^ total_bits ws -> weighted (fields x ws) ws = x.
Proof.
  induction 1 as [|w ws Hw Hws IH]; intros x Hx; simpl in *; [lia|].
  assert (HT : 0 <= total_bits ws) by (apply total_bits_nonneg; assumption).
  assert (H2T : 0 < 2 ^ total_bits ws) by pow2_pos.
  rewrite Z.pow_add_r in Hx by assumption.
  pose proof (Z.div_mod x (2 ^ total_bits ws) ltac:(lia)) as Hdm.
  pose proof (Z.mod_pos_bound x (2 ^ total_bits ws) H2T) as Hm.
  assert (Hq : 0 <= x / 2 ^ total_bits ws < 2 ^ w).
  { split; [apply Z.div_pos; lia|].
    apply Z.div_lt_upper_bound; [assumption|]. lia. }
  rewrite (Z.mod_small _ _ Hq).
  replace (fields x ws) with (fields (x mod 2 ^ total_bits ws) ws).
  - rewrite (IH _ Hm). lia.
  - rewrite Hdm at 2.
    rewrite (Z.mul_comm (2 ^ total_bits ws)).
    symmetry. apply fields_add_high. assumption.
Qed.

Lemma fields_snoc (ws : list Z) (w x : Z) :
  0 <= w ->
  Forall (fun w => 0 <= w) ws ->
  fields x (ws ++ [w]) = (fields (x / 2 ^ w) ws ++ [x mod 2 ^ w])%list.
Proof.
  intros Hw. induction 1 as [|w0 ws Hw0 Hws IH]; simpl.
  - rewrite Z.div_1_r. reflexivity.
  - rewrite IH. f_equal. f_equal.
    rewrite total_bits_app. simpl. rewrite Z.add_0_r.
    assert (HT : 0 <= total_bits ws) by (apply total_bits_nonneg; assumption).
    rewrite (Z.add_comm (total_bits ws)), Z.pow_add_r by assumption.
    symmetry. apply Z.div_div.
    + assert (0 < 2 ^ w) by pow2_pos. lia.
    + pow2_pos.
Qed.

Lemma mask_mod (x w : Z) : 0 <= w -> Z.land x (2 ^ w - 1) = x mod 2 ^ w.
Proof.
  intros Hw. replace (2 ^ w - 1) with (Z.ones w) by (rewrite Z.ones_equiv; lia).
  apply Z.land_ones. assumption.
Qed.

Lemma high_bits_zero (x T : Z) :
  0 <= x -> 0 <= T -> (x / 2 ^ T =? 0) = (x <? 2 ^ T).
Proof.
  intros Hx HT.
  assert (H2T : 0 < 2 ^ T) by pow2_pos.
  destruct (Z.ltb_spec x (2 ^ T)) as [Hlt|Hge].
  - apply Z.eqb_eq. apply Z.div_small. lia.
  - apply Z.eqb_neq. intros Hz.
    assert (1 <= x / 2 ^ T); [|lia].
    apply Z.div_le_lower_bound; lia.
Qed.

Lemma weighted_compare (va vb ws : list Z) :
  Forall2 fits va ws -> Forall2 fits vb ws ->
  component_wise_compare va vb = (weighted va ws ?= weighted vb ws).
Proof.
  intros Ha. revert vb.
  induction Ha as [|x w va ws [Hx0 Hx1] Ha IH]; intros vb Hb;
    inversion Hb as [|y ? vb' ? [Hy0 Hy1] Hb']; subst; simpl; [reflexivity|].
  pose proof (weighted_bounds va ws Ha) as HRa.
  pose proof (weighted_bounds vb' ws Hb') as HRb.
  rewrite (IH vb' Hb').
  destruct (Z.compare_spec x y) as [Heq|Hlt|Hgt].
  - subst y. symmetry. apply Z.add_compare_mono_l.
  - symmetry. apply Z.compare_lt_iff. nia.
  - symmetry. apply Z.compare_gt_iff. nia.
Qed.

Lemma component_wise_compare_eq (a : list Z) :
  forall b, component_wise_compare a b = Eq <-> a = b.
Proof.
  induction a as [|x a IH]; intros [|y b]; simpl; split; intros H;
    try discriminate; try reflexivity.
  - destruct (Z.compare_spec x y); try discriminate.
    subst y. f_equal. apply IH. assumption.
  - inversion H; subst. rewrite Z.compare_refl. apply IH. reflexivity.
Qed.

(** ** The two loops *)

Lemma accumulate_shifting (vs ws : list Z) :
  forall num,
    List.length vs = List.length ws ->
    Forall (fun w => 0 <= w) ws ->
    accumulate (combine vs ws) num true
    = Return (num * 2 ^ total_bits ws + weighted vs ws).
Proof.
  revert ws. induction vs as [|v vs IH]; intros [|w ws] num Hlen Hws;
    simpl in *; try discriminate.
  - f_equal. lia.
  - inversion Hws as [|? ? Hw Hws']; subst.
    destruct (Z.ltb_spec w 0) as [Hneg|_]; [lia|].
    rewrite IH by (auto; lia).
    f_equal. rewrite Z.shiftl_mul_pow2 by assumption.
    rewrite Z.pow_add_r by (auto using total_bits_nonneg). ring.
Qed.

Lemma accumulate_closed (vs ws : list Z) :
  List.length vs = List.length ws ->
  Forall (fun w => 0 <= w) (tl ws) ->
  accumulate (combine vs ws) 0 false = Return (weighted vs ws).
Proof.
  destruct vs as [|v vs], ws as [|w ws]; simpl; intros Hlen Hws;
    try discriminate; [reflexivity|].
  rewrite accumulate_shifting by (auto; lia). reflexivity.
Qed.

Lemma fold_shift_add (rest : list (Z * Z)) :
  forall num,
    Forall (fun p => 0 <= snd p) rest ->
    accumulate rest num true
    = Return (fold_left (fun n p => Z.shiftl n (snd p) + fst p) rest num).
Proof.
  induction rest as [|[v w] rest IH]; intros num Hws; simpl; [reflexivity|].
  inversion Hws as [|? ? Hw Hws']; subst; simpl in Hw.
  destruct (Z.ltb_spec w 0); [lia|]. apply IH; assumption.
Qed.

Lemma accumulate_shift_add (vs ws : list Z) :
  Forall (fun w => 0 <= w) (tl ws) ->
  accumulate (combine vs ws) 0 false = Return (shift_add vs ws).
Proof.
  unfold shift_add.
  destruct vs as [|v vs], ws as [|w ws]; simpl; intros Hws; try reflexivity.
  apply fold_shift_add. apply Forall_snd_combine with (P := fun w => 0 <= w).
  assumption.
Qed.

Lemma extract_closed (ws : list Z) :
  Forall (fun w => 0 <= w) ws ->
  forall x acc,
    extract (rev ws) x acc
    = Return (x / 2 ^ total_bits ws, (map py_str (fields x ws) ++ acc)%list).
Proof.
  induction ws as [|w ws IH] using rev_ind; intros Hws x acc; simpl.
  - rewrite Z.div_1_r. reflexivity.
  - apply Forall_app in Hws. destruct Hws as [Hws Hw].
    inversion Hw as [|? ? Hw0 _]; subst.
    rewrite rev_app_distr. simpl.
    destruct (Z.ltb_spec w 0); [lia|].
    rewrite IH by assumption.
    rewrite fields_snoc, mask_mod, Z.shiftr_div_pow2 by assumption.
    rewrite List.map_app, <- List.app_assoc. simpl.
    rewrite total_bits_app. simpl. rewrite Z.add_0_r.
    assert (HT : 0 <= total_bits ws) by (apply total_bits_nonneg; assumption).
    rewrite (Z.add_comm (total_bits ws)), Z.pow_add_r by assumption.
    rewrite Z.div_div; [reflexivity | | pow2_pos].
    assert (0 < 2 ^ w) by pow2_pos. lia.
Qed.

Lemma extract_Return (rbpc : list Z) :
  forall x acc r,
    extract rbpc x acc = Return r -> Forall (fun w => 0 <= w) rbpc.
Proof.
  induction rbpc as [|w rbpc IH]; intros x acc r H; [constructor|].
  simpl in H. destruct (Z.ltb_spec w 0); [discriminate|].
  constructor; [assumption | eapply IH; eauto].
Qed.

(** ** split and join *)

Lemma append_assoc (a b c : string) : ((a ++ b) ++ c = a ++ (b ++ c))%string.
Proof.
  induction a as [|x a IH]; simpl; [reflexivity | rewrite IH; reflexivity].
Qed.

Lemma append_nil_r (a : string) : (a ++ "")%string = a.
Proof.
  induction a as [|x a IH]; simpl; [reflexivity | rewrite IH; reflexivity].
Qed.

Lemma occurs_append (c : ascii) (a b : string) :
  occurs c (a ++ b) = occurs c a || occurs c b.
Proof.
  induction a as [|x a IH]; simpl; [reflexivity|].
  rewrite IH, orb_assoc. reflexivity.
Qed.

Lemma occurs_join (c : ascii) (sep : string) (l : list string) :
  occurs c sep = false ->
  Forall (fun s => occurs c s = false) l ->
  occurs c (join sep l) = false.
Proof.
  intros Hsep. induction 1 as [|s l Hs Hl IH]; [reflexivity|].
  unfold join in *. destruct l as [|s' l]; simpl; [assumption|].
  rewrite !occurs_append, Hs, Hsep. exact IH.
Qed.

(** Facts about [split] and [join] for one separator character. *)
Section Separator.

Variable sep : ascii.

Lemma split_cons (s : string) :
  exists h t, split sep s = h :: t.
Proof.
  destruct s as [|a s]; simpl; [eauto|].
  destruct (Ascii.eqb a sep); [eauto|].
  destruct (split sep s); eauto.
Qed.

Lemma split_pieces_no_sep (s : string) :
  Forall (fun c => occurs sep c = false) (split sep s).
Proof.
  induction s as [|a s IH]; simpl.
  - constructor; [reflexivity | constructor].
  - destruct (Ascii.eqb a sep) eqn:Ha.
    + constructor; [reflexivity | exact IH].
    + destruct (split sep s) as [|h t]; simpl.
      * constructor; [simpl; rewrite Ha; reflexivity | constructor].
      * inversion IH; subst. constructor; [simpl; rewrite Ha|]; assumption.
Qed.

Lemma split_pieces_chars (d : ascii) (s : string) :
  occurs d s = false ->
  Forall (fun c => occurs d c = false) (split sep s).
Proof.
  induction s as [|a s IH]; simpl; intros Hd.
  - constructor; [reflexivity | constructor].
  - apply orb_false_iff in Hd. destruct Hd as [Ha Hs]. specialize (IH Hs).
    destruct (Ascii.eqb a sep).
    + constructor; [reflexivity | exact IH].
    + destruct (split sep s) as [|h t]; simpl.
      * constructor; [simpl; rewrite Ha; reflexivity | constructor].
      * inversion IH; subst. constructor; [simpl; rewrite Ha|]; assumption.
Qed.

Lemma split_absent (s : string) :
  occurs sep s = false -> split sep s = [s].
Proof.
  induction s as [|a s IH]; simpl; intros H; [reflexivity|].
  apply orb_false_iff in H. destruct H as [Ha Hs].
  rewrite Ha, (IH Hs). reflexivity.
Qed.

Lemma split_app_sep (c r : string) :
  occurs sep c = false ->
  split sep (c ++ String sep r) = c :: split sep r.
Proof.
  induction c as [|a c IH]; simpl; intros H.
  - rewrite Ascii.eqb_refl. reflexivity.
  - apply orb_false_iff in H. destruct H as [Ha Hc].
    rewrite Ha, (IH Hc). reflexivity.
Qed.

Lemma split_join (cs : list string) :
  cs <> [] ->
  Forall (fun c => occurs sep c = false) cs ->
  split sep (join (String sep EmptyString) cs) = cs.
Proof.
  induction cs as [|c cs IH]; intros Hne Hcs; [congruence|].
  inversion Hcs as [|? ? Hc Hrest]; subst.
  destruct cs as [|c' cs]; simpl.
  - apply split_absent. assumption.
  - unfold join in IH. simpl in IH.
    rewrite split_app_sep by assumption.
    f_equal. apply IH; [discriminate | assumption].
Qed.

Lemma join_split (s : string) :
  join (String sep EmptyString) (split sep s) = s.
Proof.
  unfold join. induction s as [|a s IH]; [reflexivity|].
  simpl. destruct (split_cons s) as (h & t & E). rewrite E in *.
  destruct (Ascii.eqb_spec a sep) as [->|Hne].
  - simpl in *. rewrite IH. reflexivity.
  - destruct t as [|h' t]; simpl in *; rewrite <- IH; reflexivity.
Qed.

Lemma hd_split_no_sep (s : string) :
  occurs sep (hd EmptyString (split sep s)) = false.
Proof.
  pose proof (split_pieces_no_sep s) as H.
  destruct (split sep s); simpl; [reflexivity|]. inversion H; assumption.
Qed.

Lemma hd_split_chars (d : ascii) (s : string) :
  occurs d s = false -> occurs d (hd EmptyString (split sep s)) = false.
Proof.
  intros Hd. pose proof (split_pieces_chars d s Hd) as H.
  destruct (split sep s); simpl; [reflexivity|]. inversion H; assumption.
Qed.

Lemma hd_split_app (a b : string) :
  occurs sep a = false ->
  hd EmptyString (split sep (a ++ b)) = (a ++ hd EmptyString (split sep b))%string.
Proof.
  induction a as [|x a IH]; simpl; intros H; [reflexivity|].
  apply orb_false_iff in H. destruct H as [Hx Ha]. rewrite Hx.
  specialize (IH Ha).
  destruct (split_cons (a ++ b)) as (h & t & E). rewrite E in *.
  simpl in *. rewrite IH. reflexivity.
Qed.

End Separator.

Lemma hd_split_join (cs : list string) (l : string) :
  Forall (fun c => occurs "-" c = false) cs ->
  hd EmptyString (split "-" (join "." (cs ++ [l])))
  = join "." (cs ++ [hd EmptyString (split "-" l)]).
Proof.
  unfold join. induction 1 as [|c cs Hc Hcs IH]; [reflexivity|].
  simpl. destruct cs as [|c' cs]; simpl in *.
  - rewrite hd_split_app by assumption.
    change (String "." l) with ("." ++ l)%string.
    rewrite (hd_split_app "-" "." l eq_refl). reflexivity.
  - rewrite hd_split_app by assumption.
    match goal with
    | |- context [split "-" (String "." ?r)] =>
        change (String "." r) with ("." ++ r)%string;
        rewrite (hd_split_app "-" "." r eq_refl)
    end.
    rewrite IH. reflexivity.
Qed.

Lemma stripped_components_no_dot (V : string) :
  Forall (fun c => occurs "." c = false) (stripped_components V).
Proof.
  unfold stripped_components.
  pose proof (split_pieces_no_sep "." V) as H.
  destruct (split_cons "." V) as (h & t & E).
  apply Forall_app. split.
  - apply Forall_removelast. assumption.
  - constructor; [|constructor].
    apply hd_split_chars.
    apply (Forall_last (fun c => occurs "." c = false)); [|assumption].
    rewrite E. discriminate.
Qed.

Lemma stripped_components_strip_suffix (V : string) :
  stripped_components (strip_suffix V) = stripped_components V.
Proof.
  unfold strip_suffix.
  pose proof (stripped_components_no_dot V) as Hnd.
  unfold stripped_components at 1.
  rewrite (split_join "." (stripped_components V)); [|unfold stripped_components; destruct (removelast (split "." V)); discriminate | assumption].
  unfold stripped_components.
  rewrite removelast_last, last_last.
  rewrite (split_absent "-" _ (hd_split_no_sep "-" _)). reflexivity.
Qed.

Lemma stripped_components_join (cs : list string) :
  cs <> [] ->
  Forall (fun c => occurs "." c = false) cs ->
  occurs "-" (last cs EmptyString) = false ->
  stripped_components (join "." cs) = cs.
Proof.
  intros Hne Hdot Hhy. unfold stripped_components.
  rewrite (split_join "." cs Hne Hdot).
  rewrite (split_absent "-" _ Hhy). simpl.
  symmetry. apply removelast_last_split. assumption.
Qed.

(** The form the repository's own example run uses (line 191):
    [ver.split('-')[0]].  It is [strip_suffix] when no component before the
    last contains a hyphen. *)
Lemma strip_suffix_split_hyphen (V : string) :
  Forall (fun c => occurs "-" c = false) (removelast (split "." V)) ->
  hd EmptyString (split "-" V) = strip_suffix V.
Proof.
  intros H. unfold strip_suffix, stripped_components.
  rewrite <- (hd_split_join _ _ H).
  rewrite <- removelast_last_split.
  - rewrite join_split. reflexivity.
  - destruct (split_cons "." V) as (h & t & E). rewrite E. discriminate.
Qed.

(** ** int() and str() *)

Lemma py_int_cases (s : string) :
  (exists v, py_int s = Return v)
  \/ py_int s = Raise (Builtin (ValueError_literal s)).
Proof.
  unfold py_int.
  destruct (match lstrip s with
            | String "+" r => (1, r)
            | String "-" r => (-1, r)
            | _ => (1, lstrip s)
            end) as [sign s2].
  destruct s2 as [|c s2']; [right; reflexivity|].
  destruct (digit_value c); [|right; reflexivity].
  destruct (scan_digits (String c s2') 0 false) as [[n rest]|];
    [|right; reflexivity].
  destruct (lstrip rest); [left; eauto | right; reflexivity].
Qed.

Lemma rejected_raises (c : string) :
  rejected c -> py_int c = Raise (Builtin (ValueError_literal c)).
Proof.
  intros H. destruct (py_int_cases c) as [[v Hv]|Hr]; [|assumption].
  exfalso. apply (H v). assumption.
Qed.

Lemma scan_digits_uint (d : Decimal.uint) :
  forall acc,
    scan_digits (NilEmpty.string_of_uint d) acc false
    = Some (uint_value d acc, EmptyString).
Proof.
  induction d; intros acc; cbn [NilEmpty.string_of_uint scan_digits uint_value];
    try reflexivity;
    match goal with
    | |- context [digit_value ?c] =>
        change (digit_value c) with (Some (Z.of_N (N_of_ascii c) - 48))
    end; cbv beta iota; rewrite IHd; do 3 f_equal;
    match goal with
    | |- context [Z.of_N (N_of_ascii ?c) - 48] =>
        let v := eval vm_compute in (Z.of_N (N_of_ascii c) - 48) in
        change (Z.of_N (N_of_ascii c) - 48) with v
    end; lia.
Qed.

Lemma uint_value_acc (d : Decimal.uint) :
  forall p, uint_value d (Z.pos p) = Z.pos (Pos.of_uint_acc d p).
Proof.
  induction d; intros p; cbn [uint_value Pos.of_uint_acc]; try reflexivity;
    rewrite <- IHd; f_equal; lia.
Qed.

Lemma uint_value_0 (d : Decimal.uint) :
  uint_value d 0 = Z.of_N (Pos.of_uint d).
Proof.
  induction d; cbn [uint_value Pos.of_uint]; try reflexivity;
    try (exact IHd); apply (uint_value_acc d).
Qed.

Lemma uint_value_to_uint (p : positive) :
  uint_value (Pos.to_uint p) 0 = Z.pos p.
Proof.
  rewrite uint_value_0, DecimalPos.Unsigned.of_to. reflexivity.
Qed.

(** A literal that starts with a digit and is one run of digits. *)
Lemma py_int_run (c : ascii) (s : string) (n : Z) :
  digit_value c <> None ->
  scan_digits (String c s) 0 false = Some (n, EmptyString) ->
  py_int (String c s) = Return n /\ py_int (String "-" (String c s)) = Return (- n).
Proof.
  intros Hd Hscan.
  assert (Hc : Py_ISSPACE c = false /\ c <> "+"%char /\ c <> "-"%char).
  { destruct_ascii c; try (exfalso; apply Hd; reflexivity);
      repeat split; try reflexivity; discriminate. }
  destruct Hc as (Hsp & Hplus & Hminus).
  split.
  - unfold py_int. cbn [lstrip]. rewrite Hsp.
    assert (E : match String c s with
                | String "+" r => (1, r)
                | String "-" r => (-1, r)
                | _ => (1, String c s)
                end = (1, String c s)).
    { destruct_ascii c; try reflexivity; congruence. }
    rewrite E. destruct (digit_value c); [|congruence].
    rewrite Hscan. cbn [lstrip]. f_equal; lia.
  - unfold py_int. cbn [lstrip].
    change (Py_ISSPACE "-") with false. cbv iota.
    destruct (digit_value c); [|congruence].
    rewrite Hscan. cbn [lstrip]. f_equal; lia.
Qed.

Lemma string_of_uint_first (d : Decimal.uint) :
  d <> Decimal.Nil ->
  exists c s, NilEmpty.string_of_uint d = String c s /\ digit_value c <> None.
Proof.
  destruct d; intros H; [congruence| ..]; cbn [NilEmpty.string_of_uint];
    eexists; eexists; (split; [reflexivity | discriminate]).
Qed.

Lemma py_str_pos (p : positive) :
  py_str (Z.pos p) = NilEmpty.string_of_uint (Pos.to_uint p).
Proof.
  unfold py_str. simpl. unfold NilZero.string_of_uint.
  pose proof (DecimalPos.Unsigned.to_uint_nonnil p) as H.
  destruct (Pos.to_uint p); [congruence | reflexivity ..].
Qed.

Lemma py_str_neg (p : positive) :
  py_str (Z.neg p) = String "-" (py_str (Z.pos p)).
Proof.
  reflexivity.
Qed.

(** [int(str(z)) == z]. *)
Lemma py_int_py_str (z : Z) : py_int (py_str z) = Return z.
Proof.
  destruct z as [|p|p]; [reflexivity| |].
  - rewrite py_str_pos.
    destruct (string_of_uint_first (Pos.to_uint p)
                (DecimalPos.Unsigned.to_uint_nonnil p)) as (c & s & E & Hc).
    pose proof (scan_digits_uint (Pos.to_uint p) 0) as Hscan.
    rewrite uint_value_to_uint, E in Hscan. rewrite E.
    apply (py_int_run c s (Z.pos p) Hc Hscan).
  - rewrite py_str_neg, py_str_pos.
    destruct (string_of_uint_first (Pos.to_uint p)
                (DecimalPos.Unsigned.to_uint_nonnil p)) as (c & s & E & Hc).
    pose proof (scan_digits_uint (Pos.to_uint p) 0) as Hscan.
    rewrite uint_value_to_uint, E in Hscan. rewrite E.
    apply (py_int_run c s (Z.pos p) Hc Hscan).
Qed.

Lemma py_str_inj (a b : Z) : py_str a = py_str b -> a = b.
Proof.
  intros H. pose proof (py_int_py_str a) as Ha.
  rewrite H, py_int_py_str in Ha. congruence.
Qed.

Lemma map_py_str_inj (l1 l2 : list Z) :
  map py_str l1 = map py_str l2 -> l1 = l2.
Proof.
  revert l2. induction l1 as [|a l1 IH]; intros [|b l2] H; simpl in H;
    try discriminate; [reflexivity|].
  inversion H as [[Hab Hrest]]. f_equal; [apply py_str_inj | apply IH]; assumption.
Qed.

Lemma string_of_uint_plain (d : Decimal.uint) :
  occurs "." (NilEmpty.string_of_uint d) = false
  /\ occurs "-" (NilEmpty.string_of_uint d) = false.
Proof.
  induction d; cbn [NilEmpty.string_of_uint occurs]; auto.
Qed.

Lemma py_str_no_dot (z : Z) : occurs "." (py_str z) = false.
Proof.
  destruct z as [|p|p]; [reflexivity| |].
  - rewrite py_str_pos. apply string_of_uint_plain.
  - rewrite py_str_neg, py_str_pos. cbn [occurs].
    apply (proj1 (string_of_uint_plain _)).
Qed.

Lemma py_str_no_hyphen (z : Z) : 0 <= z -> occurs "-" (py_str z) = false.
Proof.
  destruct z as [|p|p]; intros Hz; [reflexivity| |lia].
  rewrite py_str_pos. apply string_of_uint_plain.
Qed.

Lemma join_map_py_str_inj (l1 l2 : list Z) :
  l1 <> [] -> l2 <> [] ->
  join "." (map py_str l1) = join "." (map py_str l2) -> l1 = l2.
Proof.
  intros H1 H2 H. apply map_py_str_inj.
  assert (Hsplit : forall l, l <> [] ->
            split "." (join "." (map py_str l)) = map py_str l).
  { intros l Hl. apply split_join.
    - destruct l; [congruence | discriminate].
    - apply Forall_map. apply Forall_forall. intros z _. apply py_str_no_dot. }
  rewrite <- (Hsplit l1 H1), <- (Hsplit l2 H2), H. reflexivity.
Qed.

Lemma parses_py_str (vs : list Z) : Forall2 parses (map py_str vs) vs.
Proof.
  induction vs as [|v vs IH]; simpl; constructor; [apply py_int_py_str | exact IH].
Qed.

(** ** Canonical numerals *)

Lemma all_digits_uint (s : string) :
  all_digits s = true -> exists d, NilEmpty.uint_of_string s = Some d.
Proof.
  induction s as [|c s IH]; simpl; intros H; [eauto|].
  apply andb_true_iff in H. destruct H as [Hc Hs].
  destruct (IH Hs) as [d Hd]. rewrite Hd.
  destruct_ascii c; try discriminate Hc;
    eexists; reflexivity.
Qed.

Lemma leading_digit_uint (c : ascii) (s : string) :
  all_digits (String c s) = true ->
  c <> "0"%char ->
  exists d, NilEmpty.uint_of_string (String c s) = Some d
            /\ Decimal.unorm d = d /\ d <> Decimal.Nil.
Proof.
  simpl. intros H Hc0.
  apply andb_true_iff in H. destruct H as [Hc Hs].
  destruct (all_digits_uint s Hs) as [d Hd]. rewrite Hd.
  destruct_ascii c; try discriminate Hc;
    try congruence;
    eexists; (split; [reflexivity | split; [reflexivity | discriminate]]).
Qed.

Lemma py_str_of_uint (d : Decimal.uint) :
  Decimal.unorm d = d -> d <> Decimal.Nil ->
  py_str (Z.of_uint d) = NilEmpty.string_of_uint d.
Proof.
  intros Hn Hd. unfold py_str.
  change (Z.of_uint d) with (Z.of_int (Decimal.Pos d)).
  rewrite DecimalZ.to_of. simpl. rewrite Hn.
  unfold NilZero.string_of_uint. destruct d; [congruence | reflexivity ..].
Qed.

(** A canonical numeral is [str] of its value. *)
Lemma canonical_numeral_py_str (c : string) :
  canonical_numeral c = true -> exists v, 0 <= v /\ py_str v = c.
Proof.
  destruct c as [|a s]; simpl; [discriminate|]. intros H.
  apply andb_true_iff in H. destruct H as [Hdig Hlead].
  destruct (Ascii.eqb_spec a "0") as [->|Hne]; simpl in Hlead.
  - apply String.eqb_eq in Hlead. subst s. exists 0. split; [lia | reflexivity].
  - destruct (leading_digit_uint a s Hdig Hne) as (d & Hd & Hn & Hnil).
    exists (Z.of_uint d). split.
    + unfold Z.of_uint. apply N2Z.is_nonneg.
    + rewrite (py_str_of_uint d Hn Hnil). apply NilEmpty.sus. assumption.
Qed.

Lemma all_digits_string_of_uint (d : Decimal.uint) :
  all_digits (NilEmpty.string_of_uint d) = true.
Proof.
  induction d; simpl; auto.
Qed.

(** [str] of a non-negative int is a canonical numeral. *)
Lemma py_str_canonical (v : Z) : 0 <= v -> canonical_numeral (py_str v) = true.
Proof.
  destruct v as [|p|p]; intros Hv; [reflexivity| |lia].
  rewrite py_str_pos.
  pose proof (all_digits_string_of_uint (Pos.to_uint p)) as Hall.
  assert (Hnz : Decimal.nzhead (Pos.to_uint p) = Pos.to_uint p).
  { pose proof (DecimalPos.Unsigned.to_of (Pos.to_uint p)) as H.
    rewrite DecimalPos.Unsigned.of_to in H. simpl in H.
    rewrite <- DecimalFacts.unorm_nzhead; [congruence|].
    intros E. apply DecimalFacts.unorm_0 in E.
    apply (DecimalPos.Unsigned.to_uint_nonzero p). congruence. }
  pose proof (DecimalFacts.nzhead_nonzero (Pos.to_uint p)) as Hhead.
  pose proof (DecimalPos.Unsigned.to_uint_nonnil p) as Hnil.
  rewrite Hnz in Hhead.
  destruct (Pos.to_uint p) as [|d|d|d|d|d|d|d|d|d|d]; [congruence| ..];
    try (exfalso; apply (Hhead d); reflexivity);
    cbn [NilEmpty.string_of_uint] in *; unfold canonical_numeral;
    rewrite Hall; reflexivity.
Qed.

Lemma canonical_components (cs : list string) (vs : list Z) :
  Forall2 parses cs vs ->
  Forall (fun c => canonical_numeral c = true) cs ->
  cs = map py_str vs.
Proof.
  induction 1 as [|c v cs vs Hc _ IH]; intros Hcan; [reflexivity|].
  inversion Hcan as [|? ? Hc1 Hrest]; subst. simpl. rewrite <- (IH Hrest).
  f_equal. destruct (canonical_numeral_py_str c Hc1) as (v' & _ & E).
  unfold parses in Hc. rewrite <- E, py_int_py_str in Hc.
  inversion Hc; subst. reflexivity.
Qed.

(** ** Parsing the components *)

Lemma parse_init_Return (cs : list string) :
  forall vs, parse_init cs = Return vs <-> Forall2 parses cs vs.
Proof.
  unfold parses.
  induction cs as [|c cs IH]; intros vs; simpl.
  - split; intros H.
    + inversion H. constructor.
    + inversion H. reflexivity.
  - destruct (py_int_cases c) as [[v Hv]|Hr]; rewrite ?Hv, ?Hr; simpl.
    + destruct (parse_init cs) as [vs'|e] eqn:E; simpl.
      * split; intros H.
        -- inversion H; subst. constructor; [assumption|]. apply IH. reflexivity.
        -- inversion H as [|? v0 ? vs0 Hc Hrest]; subst.
           apply IH in Hrest. inversion Hrest; subst.
           rewrite Hv in Hc. inversion Hc; subst. reflexivity.
      * split; intros H; [discriminate|].
        inversion H as [|? v0 ? vs0 Hc Hrest]; subst.
        apply IH in Hrest. discriminate.
    + split; intros H; [discriminate|].
      inversion H as [|? v0 ? vs0 Hc Hrest]; subst.
      rewrite Hr in Hc. discriminate.
Qed.

Lemma parse_init_rejected (cs : list string) :
  Exists rejected cs ->
  exists c, In c cs
            /\ parse_init cs
               = Raise (HashVerException (msg_component c (ValueError_literal c))).
Proof.
  induction cs as [|c cs IH]; intros H; [inversion H|].
  simpl. destruct (py_int_cases c) as [[v Hv]|Hr].
  - rewrite Hv. simpl.
    inversion H as [? ? Hc|? ? Hrest]; subst; [exfalso; apply (Hc v); assumption|].
    destruct (IH Hrest) as (c' & Hin & E). exists c'. split; [right; assumption|].
    rewrite E. reflexivity.
  - exists c. split; [left; reflexivity|]. rewrite Hr. reflexivity.
Qed.

Lemma parse_init_cases (cs : list string) :
  (exists vs, parse_init cs = Return vs)
  \/ (exists c, In c cs
                /\ parse_init cs
                   = Raise (HashVerException
                              (msg_component c (ValueError_literal c)))).
Proof.
  induction cs as [|c cs IH]; simpl; [left; eauto|].
  destruct (py_int_cases c) as [[v Hv]|Hr].
  - rewrite Hv. simpl. destruct IH as [[vs E]|(c' & Hin & E)]; rewrite E; simpl.
    + left. eauto.
    + right. exists c'. split; [right; assumption | reflexivity].
  - right. exists c. rewrite Hr. split; [left; reflexivity | reflexivity].
Qed.

Lemma parse_components_Return (V : string) (vs : list Z) :
  parse_components V = Return vs <-> Forall2 parses (stripped_components V) vs.
Proof.
  unfold parse_components, stripped_components.
  set (cs := removelast (split "." V)).
  set (p := hd EmptyString (split "-" (last (split "." V) EmptyString))).
  split.
  - intros H.
    destruct (parse_init cs) as [vpc|e] eqn:E; simpl in H; [|discriminate].
    apply parse_init_Return in E.
    destruct (py_int_cases p) as [[v Hv]|Hr]; rewrite ?Hv, ?Hr in H; simpl in H;
      [|discriminate].
    inversion H; subst.
    apply Forall2_app; [assumption|]. constructor; [exact Hv | constructor].
  - intros H. apply Forall2_snoc_inv in H.
    destruct H as (m & b & -> & Hm & Hb).
    apply parse_init_Return in Hm. rewrite Hm. simpl.
    unfold parses in Hb. rewrite Hb. reflexivity.
Qed.

(** What [get_num] does once the components are known. *)
Lemma parse_components_eq (V1 V2 : string) :
  stripped_components V1 = stripped_components V2 ->
  forall vs, parse_components V1 = Return vs <-> parse_components V2 = Return vs.
Proof.
  intros E vs. rewrite !parse_components_Return, E. reflexivity.
Qed.

Lemma parse_components_nonempty (V : string) (vs : list Z) :
  parse_components V = Return vs -> vs <> [].
Proof.
  intros H ->. apply parse_components_Return in H.
  unfold stripped_components in H. inversion H as [E|].
  destruct (removelast (split "." V)); discriminate.
Qed.

Lemma parse_components_rendered (vs : list Z) :
  vs <> [] ->
  Forall (fun v => 0 <= v) vs ->
  parse_components (join "." (map py_str vs)) = Return vs.
Proof.
  intros Hne Hpos. apply parse_components_Return.
  rewrite stripped_components_join; [apply parses_py_str | | |].
  - destruct vs; [congruence | discriminate].
  - apply Forall_map, Forall_forall. intros z _. apply py_str_no_dot.
  - apply (Forall_last (fun c => occurs "-" c = false)).
    + destruct vs; [congruence | discriminate].
    + apply Forall_map. eapply Forall_impl; [|exact Hpos].
      intros z Hz. apply py_str_no_hyphen. assumption.
Qed.

(** ** get_num and get_version_str *)

Lemma get_num_parsed (self : HashVer) (V : string) (vs : list Z) :
  parse_components V = Return vs ->
  get_num self V
  = except_Exception
      (if negb (Nat.eqb (List.length (bits_per_component self)) (List.length vs))
       then Raise (HashVerException
                     (msg_count (count_text V (bits_per_component self))))
       else accumulate (combine vs (bits_per_component self)) 0 false)
      msg_parsing.
Proof.
  intros Hp. unfold get_num. rewrite Hp. reflexivity.
Qed.

Lemma get_num_closed (self : HashVer) (V : string) (vs : list Z) :
  parse_components V = Return vs ->
  List.length vs = List.length (bits_per_component self) ->
  Forall (fun w => 0 <= w) (tl (bits_per_component self)) ->
  get_num self V = Return (weighted vs (bits_per_component self)).
Proof.
  intros Hp Hlen Hws. rewrite (get_num_parsed self V vs Hp).
  rewrite <- Hlen, Nat.eqb_refl. simpl.
  rewrite accumulate_closed by assumption. reflexivity.
Qed.

Lemma get_num_Return (self : HashVer) (V : string) (n : Z) :
  get_num self V = Return n
  <-> exists vs,
        parse_components V = Return vs
        /\ List.length (bits_per_component self) = List.length vs
        /\ accumulate (combine vs (bits_per_component self)) 0 false = Return n.
Proof.
  split.
  - intros H. unfold get_num in H.
    destruct (parse_components V) as [vs|e] eqn:E; simpl in H.
    + exists vs. split; [reflexivity|].
      destruct (Nat.eqb_spec (List.length (bits_per_component self))
                             (List.length vs)) as [Hl|Hl]; simpl in H;
        [|discriminate].
      split; [assumption|].
      destruct (accumulate (combine vs (bits_per_component self)) 0 false)
        as [a|[b|m]]; simpl in H; try discriminate. assumption.
    + destruct e; discriminate.
  - intros (vs & Hp & Hl & Ha).
    rewrite (get_num_parsed self V vs Hp), Hl, Nat.eqb_refl. simpl.
    rewrite Ha. reflexivity.
Qed.

Lemma get_num_parse_Raise (self : HashVer) (V : string) (m : message) :
  parse_components V = Raise (HashVerException m) ->
  get_num self V = Raise (HashVerException m).
Proof.
  intros H. unfold get_num. rewrite H. reflexivity.
Qed.

Lemma get_version_str_closed (self : HashVer) (x : Z) :
  Forall (fun w => 0 <= w) (bits_per_component self) ->
  get_version_str self x
  = if x / 2 ^ total_bits (bits_per_component self) =? 0
    then Return (join "." (map py_str (fields x (bits_per_component self))))
    else Raise (HashVerException
                  (msg_compat (compat_text x (bits_per_component self)))).
Proof.
  intros Hws. unfold get_version_str.
  rewrite (extract_closed _ Hws x []). simpl. rewrite List.app_nil_r.
  destruct (x / 2 ^ total_bits (bits_per_component self) =? 0); reflexivity.
Qed.

Lemma get_version_str_Return (self : HashVer) (x : Z) (s : string) :
  get_version_str self x = Return s ->
  Forall (fun w => 0 <= w) (bits_per_component self)
  /\ s = join "." (map py_str (fields x (bits_per_component self))).
Proof.
  intros H.
  assert (Hws : Forall (fun w => 0 <= w) (bits_per_component self)).
  { unfold get_version_str in H.
    destruct (extract (rev (bits_per_component self)) x []) as [r|e] eqn:E.
    - apply extract_Return in E. apply Forall_rev in E.
      rewrite rev_involutive in E. assumption.
    - destruct e; discriminate. }
  split; [assumption|].
  rewrite (get_version_str_closed self x Hws) in H.
  destruct (x / 2 ^ total_bits (bits_per_component self) =? 0);
    [congruence | discriminate].
Qed.

(** * The claims *)

(** C1 (as amended). For every profile and every version string whose
    components parse, are as many as the widths, have values that fit their
    widths, and are canonical numerals (digits only, no leading zero; the
    last one taken up to its first hyphen), encoding succeeds and decoding
    the result gives the string without the suffix of its last component. *)
Theorem round_trip (self : HashVer) (V : string) (vs : list Z) :
  parse_components V = Return vs ->
  Forall2 fits vs (bits_per_component self) ->
  Forall (fun c => canonical_numeral c = true) (stripped_components V) ->
  exists n,
    get_num self V = Return n
    /\ get_version_str self n = Return (strip_suffix V).
Proof.
  intros Hp Hfit Hcan.
  assert (Hcs : stripped_components V = map py_str vs).
  { apply canonical_components; [|assumption].
    apply parse_components_Return. assumption. }
  pose proof (Forall2_fits_nonneg _ _ Hfit) as Hws.
  pose proof (weighted_bounds _ _ Hfit) as Hb.
  exists (weighted vs (bits_per_component self)). split.
  - apply get_num_closed; [assumption | eapply Forall2_length_eq; eauto
                          | apply Forall_tl; assumption].
  - rewrite (get_version_str_closed self _ Hws).
    rewrite (high_bits_zero _ _ (proj1 Hb) (total_bits_nonneg _ Hws)).
    destruct (Z.ltb_spec (weighted vs (bits_per_component self))
                         (2 ^ total_bits (bits_per_component self))); [|lia].
    rewrite (fields_weighted _ _ Hfit). unfold strip_suffix.
    rewrite Hcs. reflexivity.
Qed.

Lemma round_trip_witness :
  exists n,
    get_num (hv [16; 16; 16]) "0.6.4-rc1" = Return n
    /\ get_version_str (hv [16; 16; 16]) n
       = Return (strip_suffix "0.6.4-rc1").
Proof.
  apply (round_trip (hv [16; 16; 16]) "0.6.4-rc1" [0; 6; 4]);
    [reflexivity
    | simpl; repeat (constructor; try (vm_compute; split; congruence))
    | simpl; repeat (constructor; try reflexivity)].
Defined.

(** C1 as stated fails: ["01.2.3"] is well formed, has three components
    that fit 16 bits, and decodes to ["1.2.3"]. *)
Lemma round_trip_leading_zero :
  parse_components "01.2.3" = Return [1; 2; 3]
  /\ Forall2 fits [1; 2; 3] [16; 16; 16]
  /\ get_num (hv [16; 16; 16]) "01.2.3" = Return 4295098371
  /\ get_version_str (hv [16; 16; 16]) 4295098371 = Return "1.2.3"%string
  /\ strip_suffix "01.2.3" = "01.2.3"%string
  /\ get_version_str (hv [16; 16; 16]) 4295098371
     <> Return (strip_suffix "01.2.3").
Proof.
  split; [reflexivity|]. split.
  - repeat (constructor; try (vm_compute; split; congruence)).
  - repeat split; try reflexivity. vm_compute. discriminate.
Qed.

(** C2. For two version strings valid under one profile (their components
    parse, there are as many as widths, every value fits its width), the
    comparison of the component values, most significant first, is the
    comparison of the two encodings: [A < B] component-wise exactly when
    [get_num A < get_num B], and the values are equal exactly when the
    encodings are.  The encodings lie in [[0, 2^(w_1+...+w_n))], and every
    integer of that range is the encoding of a valid string: the mapping is
    a bijection between the valid component values and that range. *)
Theorem get_num_monotone (self : HashVer) (A B : string) (va vb : list Z) :
  parse_components A = Return va ->
  parse_components B = Return vb ->
  Forall2 fits va (bits_per_component self) ->
  Forall2 fits vb (bits_per_component self) ->
  (exists na nb,
      get_num self A = Return na /\ get_num self B = Return nb
      /\ component_wise_compare va vb = (na ?= nb)
      /\ (component_wise_compare va vb = Lt <-> na < nb)
      /\ (va = vb <-> na = nb)
      /\ 0 <= na < 2 ^ total_bits (bits_per_component self))
  /\ (forall x, 0 <= x < 2 ^ total_bits (bits_per_component self) ->
        exists V vs,
          parse_components V = Return vs
          /\ Forall2 fits vs (bits_per_component self)
          /\ get_num self V = Return x).
Proof.
  intros HpA HpB Ha Hb.
  pose proof (Forall2_fits_nonneg _ _ Ha) as Hws.
  split.
  - exists (weighted va (bits_per_component self)),
           (weighted vb (bits_per_component self)).
    pose proof (weighted_compare va vb _ Ha Hb) as Hcmp.
    repeat split.
    + apply get_num_closed; [assumption | eapply Forall2_length_eq; eauto
                            | apply Forall_tl; assumption].
    + apply get_num_closed; [assumption | eapply Forall2_length_eq; eauto
                            | apply Forall_tl; assumption].
    + exact Hcmp.
    + rewrite Hcmp. intros H. apply Z.compare_lt_iff. assumption.
    + rewrite Hcmp. intros H. apply Z.compare_lt_iff. assumption.
    + intros ->. reflexivity.
    + intros H. apply component_wise_compare_eq. rewrite Hcmp.
      apply Z.compare_eq_iff. assumption.
    + apply (weighted_bounds va _ Ha).
    + apply (weighted_bounds va _ Ha).
  - intros x Hx.
    set (vs := fields x (bits_per_component self)).
    assert (Hfit : Forall2 fits vs (bits_per_component self))
      by (apply fields_fit; assumption).
    assert (Hne : vs <> []).
    { intros E. apply (f_equal (@List.length Z)) in E. unfold vs in E.
      rewrite fields_length, <- (Forall2_length_eq _ _ _ Ha) in E.
      apply (parse_components_nonempty A va HpA).
      destruct va; [reflexivity | discriminate]. }
    exists (join "." (map py_str vs)), vs.
    assert (Hp : parse_components (join "." (map py_str vs)) = Return vs).
    { apply parse_components_rendered; [assumption|].
      eapply Forall2_fits_values_nonneg; eauto. }
    repeat split; [exact Hp | exact Hfit |].
    rewrite (get_num_closed self _ vs Hp);
      [| eapply Forall2_length_eq; eauto | apply Forall_tl; assumption].
    unfold vs. rewrite weighted_fields by assumption. reflexivity.
Qed.

Lemma get_num_monotone_witness :
  exists na nb,
    get_num (hv [16; 16; 16; 16]) "8.20.1300.14" = Return na
    /\ get_num (hv [16; 16; 16; 16]) "8.20.1300.24" = Return nb
    /\ component_wise_compare [8; 20; 1300; 14] [8; 20; 1300; 24] = (na ?= nb)
    /\ (component_wise_compare [8; 20; 1300; 14] [8; 20; 1300; 24] = Lt
        <-> na < nb)
    /\ ([8; 20; 1300; 14] = [8; 20; 1300; 24] <-> na = nb)
    /\ 0 <= na < 2 ^ total_bits (bits_per_component (hv [16; 16; 16; 16])).
Proof.
  apply (get_num_monotone (hv [16; 16; 16; 16]) "8.20.1300.14" "8.20.1300.24"
           [8; 20; 1300; 14] [8; 20; 1300; 24]);
    try reflexivity;
    simpl; repeat (constructor; try (vm_compute; split; congruence)).
Defined.

(** C3. When the components of a version string parse to [v_1..v_n] and
    there are as many of them as widths (the widths after the first being
    non-negative, as in every profile), [get_num] returns the accumulator
    that starts at 0, adds the first value without a shift, and for every
    later pair shifts left by that pair's width before adding its value;
    this is [v_1*2^(w_2+...+w_n) + v_2*2^(w_3+...+w_n) + ... + v_n], with
    no clamping of the result. *)
Theorem get_num_accumulates (self : HashVer) (V : string) (vs : list Z) :
  parse_components V = Return vs ->
  List.length vs = List.length (bits_per_component self) ->
  Forall (fun w => 0 <= w) (tl (bits_per_component self)) ->
  get_num self V = Return (shift_add vs (bits_per_component self))
  /\ shift_add vs (bits_per_component self)
     = weighted vs (bits_per_component self).
Proof.
  intros Hp Hlen Hws.
  pose proof (accumulate_shift_add vs _ Hws) as Hfold.
  pose proof (accumulate_closed vs _ Hlen Hws) as Hclosed.
  split.
  - rewrite (get_num_parsed self V vs Hp), <- Hlen, Nat.eqb_refl. simpl.
    rewrite Hfold. reflexivity.
  - rewrite Hfold in Hclosed. congruence.
Qed.

Lemma get_num_accumulates_witness :
  get_num (hv [8; 8; 16; 8]) "8.20.1300.14"
  = Return (shift_add [8; 20; 1300; 14] [8; 8; 16; 8])
  /\ shift_add [8; 20; 1300; 14] [8; 8; 16; 8]
     = weighted [8; 20; 1300; 14] [8; 8; 16; 8].
Proof.
  apply (get_num_accumulates (hv [8; 8; 16; 8]) "8.20.1300.14" [8; 20; 1300; 14]);
    [reflexivity | reflexivity | simpl; repeat (constructor; try lia)].
Defined.

(** C4. For a non-negative [x] and a profile of non-negative widths,
    [get_version_str] raises its incompatibility error exactly when bits of
    [x] remain above the [w_1+...+w_n] lowest ones, that is when
    [x >= 2^(w_1+...+w_n)]; otherwise it returns the decimal components,
    each the [w_i]-bit field of [x] obtained by masking with [2^w_i - 1]
    and shifting right, joined with dots. *)
Theorem get_version_str_overflow (self : HashVer) (x : Z) :
  0 <= x ->
  Forall (fun w => 0 <= w) (bits_per_component self) ->
  (2 ^ total_bits (bits_per_component self) <= x
   <-> get_version_str self x
       = Raise (HashVerException
                  (msg_compat (compat_text x (bits_per_component self)))))
  /\ (2 ^ total_bits (bits_per_component self) <= x
      <-> exists e, get_version_str self x = Raise e)
  /\ (x < 2 ^ total_bits (bits_per_component self)
      -> get_version_str self x
         = Return (join "." (map py_str (fields x (bits_per_component self))))).
Proof.
  intros Hx Hws.
  rewrite (get_version_str_closed self x Hws).
  rewrite (high_bits_zero x _ Hx (total_bits_nonneg _ Hws)).
  destruct (Z.ltb_spec x (2 ^ total_bits (bits_per_component self))) as [Hlt|Hge].
  - repeat split; intros H; try lia; try discriminate.
    destruct H as [e H]. discriminate.
  - repeat split; intros H; try lia; try reflexivity; try assumption.
    eexists. reflexivity.
Qed.

Lemma get_version_str_overflow_witness :
  get_version_str (hv [16; 16; 16]) (2 ^ 48)
  = Raise (HashVerException
             (msg_compat "281474976710656 is not compatible with [16, 16, 16]")).
Proof.
  apply (proj1 (proj1 (get_version_str_overflow (hv [16; 16; 16]) (2 ^ 48)
                         ltac:(vm_compute; discriminate)
                         ltac:(simpl; repeat (constructor; try lia))))).
  vm_compute. discriminate.
Defined.

(** C5 (as amended). When the integer parser rejects some component other
    than the last, or rejects the part of the last component before its
    first hyphen, [get_num] raises a [HashVerException] for a component
    that is not numeric (the one of line 59 or the one of line 72); so
    ["1.x.3"] fails.  A component with a sign, such as ["-1"], is not
    rejected by the parser. *)
Theorem get_num_parse_error (self : HashVer) (V : string) :
  Exists rejected (removelast (split "." V))
  \/ rejected (hd EmptyString (split "-" (last (split "." V) EmptyString))) ->
  exists e, get_num self V = Raise e /\ parse_error e.
Proof.
  intros H.
  assert (Hp : exists m, parse_components V = Raise (HashVerException m)
                         /\ parse_error (HashVerException m)).
  { unfold parse_components.
    destruct (parse_init_cases (removelast (split "." V)))
      as [[vs E]|(c & _ & E)].
    - destruct H as [H|H].
      + destruct (parse_init_rejected _ H) as (c & _ & E'). congruence.
      + rewrite E. simpl. rewrite (rejected_raises _ H). simpl.
        eexists. split; [reflexivity|].
        eexists. eexists. right. reflexivity.
    - rewrite E. simpl. eexists. split; [reflexivity|].
      eexists. eexists. left. reflexivity. }
  destruct Hp as (m & Hp & He).
  exists (HashVerException m). split; [|assumption].
  apply get_num_parse_Raise. assumption.
Qed.

Lemma get_num_parse_error_witness :
  exists e, get_num (hv [16; 16; 16]) "1.x.3" = Raise e /\ parse_error e.
Proof.
  apply (get_num_parse_error (hv [16; 16; 16]) "1.x.3").
  left. simpl. right. left. intros v. vm_compute. discriminate.
Defined.

(** C5 as stated fails: the component ["-1"] of ["-1.2.3"] is not a
    non-negative integer, and [get_num] returns. *)
Lemma get_num_accepts_negative_component :
  Exists (fun c => ~ nonneg_literal c) (removelast (split "." "-1.2.3"))
  /\ get_num (hv [16; 16; 16]) "-1.2.3" = Return (-4294836221).
Proof.
  split; [|reflexivity].
  simpl. left. intros (v & Hv & Hpos).
  vm_compute in Hv. inversion Hv; subst. lia.
Qed.

(** C6. When all components of a version string parse but their number is
    not the length of the profile, [get_num] raises the component-count
    error, and its message names both the version string and the profile. *)
Theorem get_num_arity_error (self : HashVer) (V : string) (vs : list Z) :
  parse_components V = Return vs ->
  List.length vs <> List.length (bits_per_component self) ->
  get_num self V
  = Raise (HashVerException
             (msg_count (count_text V (bits_per_component self))))
  /\ names (count_text V (bits_per_component self)) V
  /\ names (count_text V (bits_per_component self))
           (str_list (bits_per_component self)).
Proof.
  intros Hp Hlen. repeat split.
  - rewrite (get_num_parsed self V vs Hp).
    destruct (Nat.eqb_spec (List.length (bits_per_component self))
                           (List.length vs)) as [E|_]; [congruence|].
    reflexivity.
  - exists EmptyString,
      (" must have as many dot separated components as "
       ++ str_list (bits_per_component self))%string.
    reflexivity.
  - exists (V ++ " must have as many dot separated components as ")%string,
           EmptyString.
    unfold count_text. rewrite append_nil_r, append_assoc. reflexivity.
Qed.

Lemma get_num_arity_error_witness :
  get_num (hv [16; 16; 16]) "1.2"
  = Raise (HashVerException
             (msg_count
                "1.2 must have as many dot separated components as [16, 16, 16]"))
  /\ names (count_text "1.2" [16; 16; 16]) "1.2"
  /\ names (count_text "1.2" [16; 16; 16]) "[16, 16, 16]".
Proof.
  apply (get_num_arity_error (hv [16; 16; 16]) "1.2" [1; 2]);
    [reflexivity | simpl; discriminate].
Defined.

(** C7. Only the part of the last component before its first hyphen is
    encoded: [get_num] returns an integer on a version string exactly when
    it returns it on the string with the suffix removed; and no decoded
    string contains a hyphen, so the suffix is not reproduced.  With the
    profile [16, 16, 16], ["0.6.4-rc1"] encodes and decodes to ["0.6.4"]. *)
Theorem get_num_ignores_suffix (self : HashVer) (V : string) :
  (forall n, get_num self V = Return n
             <-> get_num self (strip_suffix V) = Return n)
  /\ (forall x s, get_version_str self x = Return s -> occurs "-" s = false)
  /\ get_num (hv [16; 16; 16]) "0.6.4-rc1" = Return 393220
  /\ get_version_str (hv [16; 16; 16]) 393220 = Return "0.6.4"%string.
Proof.
  split; [|split; [|split; reflexivity]].
  - intros n. rewrite !get_num_Return.
    pose proof (parse_components_eq _ _ (stripped_components_strip_suffix V))
      as Heq.
    split; intros (vs & Hp & Hrest); exists vs; (split; [|exact Hrest]);
      apply Heq; assumption.
  - intros x s H. apply get_version_str_Return in H. destruct H as [Hws ->].
    apply occurs_join; [reflexivity|].
    apply Forall_map.
    pose proof (fields_fit x _ Hws) as Hfit.
    apply Forall2_fits_values_nonneg in Hfit.
    eapply Forall_impl; [|exact Hfit].
    intros z Hz. apply py_str_no_hyphen. assumption.
Qed.

Lemma get_num_ignores_suffix_witness :
  strip_suffix "1.5.1-rc2" = "1.5.1"%string
  /\ get_num (hv [8; 8; 16]) "1.5.1-rc2" = Return 17104897
  /\ occurs "-" "1.5.1" = false.
Proof.
  destruct (get_num_ignores_suffix (hv [8; 8; 16]) "1.5.1-rc2")
    as (Henc & Hdec & _).
  split; [reflexivity|]. split.
  - apply (proj2 (Henc 17104897)). reflexivity.
  - apply (Hdec 17104897 "1.5.1"%string). reflexivity.
Defined.

(** C8. [get_num] makes no range check: whenever the components parse and
    their number is the profile's, it returns the accumulated integer, also
    when a value does not fit its width; such a value spills into the
    neighbouring bits, so that decoding the result does not give the
    components back. *)
Theorem get_num_no_range_check (self : HashVer) (V : string) (vs : list Z) :
  parse_components V = Return vs ->
  List.length vs = List.length (bits_per_component self) ->
  Forall (fun w => 0 <= w) (tl (bits_per_component self)) ->
  get_num self V = Return (weighted vs (bits_per_component self))
  /\ (~ Forall2 fits vs (bits_per_component self) ->
      get_version_str self (weighted vs (bits_per_component self))
      <> Return (join "." (map py_str vs))).
Proof.
  intros Hp Hlen Hws. split; [apply get_num_closed; assumption|].
  intros Hnot Hdec. apply Hnot.
  apply get_version_str_Return in Hdec. destruct Hdec as [Hnn Hjoin].
  assert (Hvs : vs <> []).
  { intros ->. destruct (bits_per_component self); [|discriminate].
    apply Hnot. constructor. }
  apply join_map_py_str_inj in Hjoin; [|assumption|].
  - rewrite Hjoin. apply fields_fit. assumption.
  - intros E. apply (f_equal (@List.length Z)) in E.
    rewrite fields_length, <- Hlen in E. destruct vs; [congruence | discriminate].
Qed.

Lemma get_num_no_range_check_witness :
  get_num (hv [16; 16; 16]) "1.70000.3" = Return 8882487299
  /\ get_version_str (hv [16; 16; 16]) 8882487299 <> Return "1.70000.3"%string.
Proof.
  destruct (get_num_no_range_check (hv [16; 16; 16]) "1.70000.3" [1; 70000; 3])
    as [Henc Hdec];
    [reflexivity | reflexivity | simpl; repeat (constructor; try lia) |].
  split; [exact Henc|].
  apply Hdec. intros HF.
  inversion HF as [|? ? ? ? _ HF1]; subst.
  inversion HF1 as [|? ? ? ? [_ Hlt] _]; subst.
  revert Hlt. change (2 ^ 16) with 65536. lia.
Defined.

(** C9 (as amended). Constructing a profile from a dot-separated string
    one of whose tokens the integer parser rejects raises the parser's own
    [ValueError], for the first such token; it is not a [HashVerException].
    When every token parses, the profile is the one constructed from the
    list of their values; so ["8.8.16.8"] gives the profile of
    [[8, 8, 16, 8]]. *)
Theorem init_from_string (s : string) :
  (Exists rejected (split "." s) ->
   exists tok, In tok (split "." s)
               /\ __init__ (inl s) = Raise (Builtin (ValueError_literal tok)))
  /\ (forall l, Forall2 parses (split "." s) l ->
                __init__ (inl s) = __init__ (inr l))
  /\ __init__ (inl "8.8.16.8"%string) = __init__ (inr [8; 8; 16; 8]).
Proof.
  unfold __init__. split; [|split; [|reflexivity]].
  - intros H. induction (split "." s) as [|c cs IH]; [inversion H|].
    simpl. destruct (py_int_cases c) as [[v Hv]|Hr].
    + rewrite Hv. simpl.
      inversion H as [? ? Hc|? ? Hrest]; subst;
        [exfalso; apply (Hc v); assumption|].
      destruct (IH Hrest) as (tok & Hin & E). exists tok.
      split; [right; assumption|].
      destruct (int_each cs); simpl in *; [discriminate | exact E].
    + exists c. split; [left; reflexivity|]. rewrite Hr. reflexivity.
  - intros l H. assert (E : int_each (split "." s) = Return l).
    { induction H as [|c v cs l Hc _ IH]; simpl; [reflexivity|].
      unfold parses in Hc. rewrite Hc. simpl. rewrite IH. reflexivity. }
    rewrite E. reflexivity.
Qed.

Lemma init_from_string_witness :
  __init__ (inl "8.8.16.8"%string) = __init__ (inr [8; 8; 16; 8])
  /\ exists tok, In tok (split "." "8.x.16")
                 /\ __init__ (inl "8.x.16"%string)
                    = Raise (Builtin (ValueError_literal tok)).
Proof.
  split.
  - apply (proj1 (proj2 (init_from_string "8.8.16.8")) [8; 8; 16; 8]).
    simpl. repeat (constructor; try reflexivity).
  - apply (proj1 (init_from_string "8.x.16")).
    simpl. right. left. intros v. vm_compute. discriminate.
Defined.

(** C9 as stated fails: the error of a malformed profile string is the
    builtin [ValueError], not the domain error [HashVerException]. *)
Lemma init_raises_ValueError :
  __init__ (inl "8.x.16"%string) = Raise (Builtin (ValueError_literal "x"))
  /\ forall m, __init__ (inl "8.x.16"%string) <> Raise (HashVerException m).
Proof.
  split; [reflexivity|]. intros m. vm_compute. discriminate.
Qed.

(** C10 (as amended). For every version string and every two profiles that
    differ at most in their first width, [get_num] gives the same result
    (the same integer, or the same error), except that when the number of
    components is not the profile's both calls raise the component-count
    error, each with a message quoting its own profile.  Decoding does
    depend on the first width. *)
Theorem get_num_first_width (V : string) (w w' : Z) (ws : list Z) :
  (get_num (hv (w :: ws)) V = get_num (hv (w' :: ws)) V
   \/ (get_num (hv (w :: ws)) V
       = Raise (HashVerException (msg_count (count_text V (w :: ws))))
       /\ get_num (hv (w' :: ws)) V
          = Raise (HashVerException (msg_count (count_text V (w' :: ws))))))
  /\ (forall n, get_num (hv (w :: ws)) V = Return n
                <-> get_num (hv (w' :: ws)) V = Return n)
  /\ get_version_str (hv [8; 16; 16]) (2 ^ 40)
     <> get_version_str (hv [16; 16; 16]) (2 ^ 40).
Proof.
  assert (Hmain :
    get_num (hv (w :: ws)) V = get_num (hv (w' :: ws)) V
    \/ (get_num (hv (w :: ws)) V
        = Raise (HashVerException (msg_count (count_text V (w :: ws))))
        /\ get_num (hv (w' :: ws)) V
           = Raise (HashVerException (msg_count (count_text V (w' :: ws)))))).
  { destruct (parse_components V) as [vs|e] eqn:Hp.
    - rewrite !(get_num_parsed _ V vs Hp). simpl bits_per_component.
      change (List.length (w' :: ws)) with (List.length (w :: ws)).
      destruct (Nat.eqb (List.length (w :: ws)) (List.length vs)).
      + left. destruct vs as [|v vs]; reflexivity.
      + right. split; reflexivity.
    - left. unfold get_num. rewrite Hp. reflexivity. }
  split; [exact Hmain|]. split.
  - intros n. destruct Hmain as [E|[E1 E2]].
    + rewrite E. reflexivity.
    + rewrite E1, E2. split; discriminate.
  - vm_compute. discriminate.
Qed.

(** C10 as stated fails: with two components against three widths both
    calls fail, with different messages. *)
Lemma get_num_first_width_in_message :
  get_num (hv [16; 16; 16]) "1.2"
  = Raise (HashVerException
             (msg_count
                "1.2 must have as many dot separated components as [16, 16, 16]"))
  /\ get_num (hv [8; 16; 16]) "1.2"
     = Raise (HashVerException
                (msg_count
                   "1.2 must have as many dot separated components as [8, 16, 16]"))
  /\ get_num (hv [16; 16; 16]) "1.2" <> get_num (hv [8; 16; 16]) "1.2".
Proof.
  repeat split. vm_compute. discriminate.
Qed.

(** * Further properties of the codec *)

Lemma div_zero_range (x b : Z) : 0 < b -> x / b = 0 -> 0 <= x < b.
Proof.
  intros Hb H. apply Z.div_small_iff in H; lia.
Qed.

Lemma get_version_str_range (self : HashVer) (x : Z) (s : string) :
  get_version_str self x = Return s ->
  0 <= x < 2 ^ total_bits (bits_per_component self).
Proof.
  intros H. pose proof (get_version_str_Return self x s H) as [Hws _].
  rewrite (get_version_str_closed self x Hws) in H.
  destruct (Z.eqb_spec (x / 2 ^ total_bits (bits_per_component self)) 0)
    as [E|_]; [|discriminate].
  apply div_zero_range; [|assumption].
  apply Z.pow_pos_nonneg; [lia | apply total_bits_nonneg; assumption].
Qed.

Lemma fields_nonempty (x : Z) (ws : list Z) : ws <> [] -> fields x ws <> [].
Proof.
  destruct ws; [congruence | discriminate].
Qed.

(** Encoding the text that decoding gives, for a profile that is not
    empty. *)
Lemma get_num_rendered_fields (self : HashVer) (x : Z) :
  bits_per_component self <> [] ->
  Forall (fun w => 0 <= w) (bits_per_component self) ->
  0 <= x < 2 ^ total_bits (bits_per_component self) ->
  get_num self (join "." (map py_str (fields x (bits_per_component self))))
  = Return x.
Proof.
  intros Hne Hws Hx.
  pose proof (fields_fit x _ Hws) as Hfit.
  rewrite (get_num_closed self _ (fields x (bits_per_component self))).
  - rewrite weighted_fields by assumption. reflexivity.
  - apply parse_components_rendered; [apply fields_nonempty; assumption|].
    eapply Forall2_fits_values_nonneg; eauto.
  - apply fields_length.
  - apply Forall_tl. assumption.
Qed.

(** X1. Whatever [get_version_str] returns, [get_num] takes back to the
    integer it came from, provided the profile has at least one width. *)
Theorem get_num_get_version_str (self : HashVer) (x : Z) (s : string) :
  bits_per_component self <> [] ->
  get_version_str self x = Return s ->
  get_num self s = Return x.
Proof.
  intros Hne H.
  pose proof (get_version_str_range self x s H) as Hx.
  apply get_version_str_Return in H. destruct H as [Hws ->].
  apply get_num_rendered_fields; assumption.
Qed.

Lemma get_num_get_version_str_witness :
  get_num (hv [8; 8; 16; 8]) "8.20.1300.14" = Return 34695615502.
Proof.
  apply (get_num_get_version_str (hv [8; 8; 16; 8]) 34695615502 "8.20.1300.14");
    [simpl; discriminate | reflexivity].
Defined.

(** X2. With non-negative widths, [get_version_str] rejects every negative
    integer: the right shifts never bring it to zero. *)
Theorem get_version_str_negative (self : HashVer) (x : Z) :
  Forall (fun w => 0 <= w) (bits_per_component self) ->
  x < 0 ->
  get_version_str self x
  = Raise (HashVerException
             (msg_compat (compat_text x (bits_per_component self)))).
Proof.
  intros Hws Hx. rewrite (get_version_str_closed self x Hws).
  destruct (Z.eqb_spec (x / 2 ^ total_bits (bits_per_component self)) 0)
    as [E|_]; [|reflexivity].
  apply div_zero_range in E; [lia|].
  apply Z.pow_pos_nonneg; [lia | apply total_bits_nonneg; assumption].
Qed.

Lemma get_version_str_negative_witness :
  get_version_str (hv [16; 16; 16]) (-5)
  = Raise (HashVerException
             (msg_compat "-5 is not compatible with [16, 16, 16]")).
Proof.
  apply (get_version_str_negative (hv [16; 16; 16]) (-5));
    [simpl; repeat (constructor; try lia) | lia].
Defined.







Lemma accumulate_negative (vs ws : list Z) :
  List.length vs = List.length ws ->
  Exists (fun w => w < 0) ws ->
  forall num, accumulate (combine vs ws) num true = Raise (Builtin ValueError_shift).
Proof.
  intros Hlen Hneg. revert vs Hlen.
  induction Hneg as [w ws Hw|w ws _ IH]; intros [|v vs] Hlen num;
    simpl in *; try discriminate.
  - destruct (Z.ltb_spec w 0); [reflexivity | lia].
  - destruct (w <? 0); [reflexivity|]. apply IH. lia.
Qed.

(** X4. When the components parse and their number is the profile's, a
    negative width after the first makes [get_num] fail with the wrapped
    [ValueError] of a negative shift count; the first width is never used
    as a shift. *)
Theorem get_num_negative_width (self : HashVer) (V : string) (vs : list Z) :
  parse_components V = Return vs ->
  List.length vs = List.length (bits_per_component self) ->
  Exists (fun w => w < 0) (tl (bits_per_component self)) ->
  get_num self V = Raise (HashVerException (msg_parsing ValueError_shift)).
Proof.
  intros Hp Hlen Hneg.
  rewrite (get_num_parsed self V vs Hp), <- Hlen, Nat.eqb_refl. simpl.
  destruct vs as [|v vs], (bits_per_component self) as [|w ws];
    simpl in *; try discriminate; [inversion Hneg|].
  rewrite accumulate_negative; [reflexivity | lia | assumption].
Qed.

Lemma get_num_negative_width_witness :
  get_num (hv [16; -16; 16]) "1.2.3"
  = Raise (HashVerException (msg_parsing ValueError_shift)).
Proof.
  apply (get_num_negative_width (hv [16; -16; 16]) "1.2.3" [1; 2; 3]);
    [reflexivity | reflexivity | simpl; left; lia].
Defined.

Lemma parse_components_Raise (V : string) (e : exn) :
  parse_components V = Raise e ->
  (exists c, In c (removelast (split "." V))
             /\ e = HashVerException (msg_component c (ValueError_literal c)))
  \/ e = HashVerException
           (msg_last (last (split "." V) EmptyString)
              (ValueError_literal
                 (hd EmptyString
                    (split "-" (last (split "." V) EmptyString))))).
Proof.
  unfold parse_components. intros H.
  destruct (parse_init_cases (removelast (split "." V)))
    as [[vs E]|(c & Hin & E)]; rewrite E in H; simpl in H.
  - right.
    destruct (py_int_cases
                (hd EmptyString (split "-" (last (split "." V) EmptyString))))
      as [[v Hv]|Hr]; rewrite ?Hv, ?Hr in H; simpl in H; [discriminate|].
    congruence.
  - left. exists c. split; [assumption | congruence].
Qed.



(** X6. A first component outside its width is caught when decoding: if
    the later components fit their widths and the first one does not fit
    its own (it is negative or too large), [get_num] returns an integer
    that [get_version_str] rejects as incompatible. *)
Theorem first_component_overflow (self : HashVer) (V : string)
  (v w : Z) (vs ws : list Z) :
  bits_per_component self = w :: ws ->
  parse_components V = Return (v :: vs) ->
  0 <= w ->
  Forall2 fits vs ws ->
  ~ fits v w ->
  exists n,
    get_num self V = Return n
    /\ get_version_str self n
       = Raise (HashVerException
                  (msg_compat (compat_text n (bits_per_component self)))).
Proof.
  intros Hbpc Hp Hw Hfit Hnot.
  pose proof (Forall2_fits_nonneg _ _ Hfit) as Hws.
  pose proof (weighted_bounds _ _ Hfit) as HR.
  pose proof (total_bits_nonneg _ Hws) as HT.
  assert (H2T : 0 < 2 ^ total_bits ws) by pow2_pos.
  assert (H2w : 0 < 2 ^ w) by pow2_pos.
  assert (Hall : Forall (fun w => 0 <= w) (bits_per_component self))
    by (rewrite Hbpc; constructor; assumption).
  exists (weighted (v :: vs) (bits_per_component self)). split.
  - apply get_num_closed; [assumption | | apply Forall_tl; assumption].
    rewrite Hbpc. simpl. f_equal. eapply Forall2_length_eq; eauto.
  - rewrite (get_version_str_closed self _ Hall).
    destruct (Z.eqb_spec
                (weighted (v :: vs) (bits_per_component self)
                 / 2 ^ total_bits (bits_per_component self)) 0) as [E|_];
      [|reflexivity].
    exfalso. apply div_zero_range in E; [|pow2_pos].
    rewrite Hbpc in E. simpl in E. rewrite Z.pow_add_r in E by assumption.
    apply Hnot. unfold fits. nia.
Qed.

Lemma first_component_overflow_witness :
  exists n,
    get_num (hv [8; 8; 16]) "300.1.2" = Return n
    /\ get_version_str (hv [8; 8; 16]) n
       = Raise (HashVerException
                  (msg_compat (compat_text n [8; 8; 16]))).
Proof.
  apply (first_component_overflow (hv [8; 8; 16]) "300.1.2" 300 8 [1; 2] [8; 16]);
    [reflexivity | reflexivity | lia
    | repeat (constructor; try (vm_compute; split; congruence))
    | unfold fits; change (2 ^ 8) with 256; lia].
Defined.

(** X7. With an empty profile nothing can be encoded: [get_num] fails on
    every string (a string always has at least one component).  Decoding
    accepts 0 alone and gives the empty string. *)
Theorem empty_profile (self : HashVer) :
  bits_per_component self = [] ->
  (forall V, exists m, get_num self V = Raise (HashVerException m))
  /\ get_version_str self 0 = Return EmptyString
  /\ (forall x, x <> 0 ->
                get_version_str self x
                = Raise (HashVerException (msg_compat (compat_text x [])))).
Proof.
  intros Hbpc. split; [|split].
  - intros V. destruct (parse_components V) as [vs|e] eqn:Hp.
    + rewrite (get_num_parsed self V vs Hp), Hbpc.
      pose proof (parse_components_nonempty V vs Hp) as Hne.
      destruct vs; [congruence|]. simpl. eauto.
    + pose proof (parse_components_Raise V e Hp) as He.
      destruct He as [(c & _ & ->) | -> ]; eexists;
        apply get_num_parse_Raise; exact Hp.
  - unfold get_version_str. rewrite Hbpc. reflexivity.
  - intros x Hx. unfold get_version_str. rewrite Hbpc. simpl.
    destruct (Z.eqb_spec x 0); [congruence | reflexivity].
Qed.

Lemma empty_profile_witness :
  (exists m, get_num (hv []) "" = Raise (HashVerException m))
  /\ get_version_str (hv []) 0 = Return EmptyString.
Proof.
  destruct (empty_profile (hv []) eq_refl) as (Henc & Hdec & _).
  split; [apply Henc | exact Hdec].
Defined.

Lemma int_each_py_str (l : list Z) : int_each (map py_str l) = Return l.
Proof.
  induction l as [|v l IH]; simpl; [reflexivity|].
  rewrite py_int_py_str. simpl. rewrite IH. reflexivity.
Qed.

Lemma int_each_length (cs : list string) :
  forall l, int_each cs = Return l -> List.length l = List.length cs.
Proof.
  induction cs as [|c cs IH]; intros l H; simpl in H.
  - inversion H. reflexivity.
  - destruct (py_int c); simpl in H; [|discriminate].
    destruct (int_each cs) as [l'|]; simpl in H; [|discriminate].
    inversion H; subst. simpl. f_equal. apply IH. reflexivity.
Qed.

(** X8. A profile written as the dot-joined decimal text of a list of ints
    that is not empty constructs the same object as the list itself. *)
Theorem init_rendered_profile (l : list Z) :
  l <> [] ->
  __init__ (inl (join "." (map py_str l))) = __init__ (inr l).
Proof.
  intros Hl. unfold __init__.
  rewrite split_join.
  - rewrite int_each_py_str. reflexivity.
  - destruct l; [congruence | discriminate].
  - apply Forall_map, Forall_forall. intros z _. apply py_str_no_dot.
Qed.

Lemma init_rendered_profile_witness :
  __init__ (inl "8.-8.16"%string) = __init__ (inr [8; -8; 16]).
Proof.
  apply (init_rendered_profile [8; -8; 16]). discriminate.
Defined.

(** X9. A profile constructed from a string never is empty: the string
    always splits into at least one token, and every token gives one
    width. *)
Theorem init_string_nonempty (s : string) (self : HashVer) :
  __init__ (inl s) = Return self ->
  bits_per_component self <> []
  /\ List.length (bits_per_component self) = List.length (split "." s).
Proof.
  intros H. unfold __init__ in H.
  destruct (int_each (split "." s)) as [l'|] eqn:E; simpl in H; [|discriminate].
  inversion H; subst. simpl.
  apply int_each_length in E. split; [|assumption].
  destruct (split_cons "." s) as (h & t & Hs). rewrite Hs in E.
  destruct l'; discriminate.
Qed.

Lemma init_string_nonempty_witness :
  bits_per_component (hv [8; 8]) <> []
  /\ List.length (bits_per_component (hv [8; 8])) = List.length (split "." "8.8").
Proof.
  apply (init_string_nonempty "8.8" (hv [8; 8])). reflexivity.
Defined.

(** * Properties of the command line *)

Lemma is_digit_value (c : ascii) : is_digit c = true -> digit_value c <> None.
Proof.
  unfold is_digit. destruct (digit_value c); [discriminate | discriminate].
Qed.

Lemma isdigit_py_int (s : string) :
  isdigit s = true -> exists n, 0 <= n /\ py_int s = Return n.
Proof.
  destruct s as [|c s]; [discriminate|]. unfold isdigit. intros Hall.
  destruct (all_digits_uint _ Hall) as [d Hd].
  pose proof (scan_digits_uint d 0) as Hscan.
  rewrite (NilEmpty.sus _ _ Hd) in Hscan.
  simpl in Hall. apply andb_true_iff in Hall. destruct Hall as [Hc _].
  exists (uint_value d 0). split.
  - rewrite uint_value_0. apply N2Z.is_nonneg.
  - apply (py_int_run c s _ (is_digit_value c Hc) Hscan).
Qed.

Lemma isdigit_py_str (n : Z) : 0 <= n -> isdigit (py_str n) = true.
Proof.
  intros Hn. pose proof (py_str_canonical n Hn) as H.
  unfold canonical_numeral in H. unfold isdigit.
  destruct (py_str n); [discriminate|].
  apply andb_true_iff in H. apply H.
Qed.

Lemma all_digits_no_dot (s : string) :
  all_digits s = true -> occurs "." s = false.
Proof.
  induction s as [|c s IH]; simpl; intros H; [reflexivity|].
  apply andb_true_iff in H. destruct H as [Hc Hs]. rewrite (IH Hs).
  destruct_ascii c; try discriminate Hc; reflexivity.
Qed.

Lemma isdigit_dotted (s : string) : occurs "." s = true -> isdigit s = false.
Proof.
  intros H. destruct (isdigit s) eqn:E; [|reflexivity].
  destruct s; [discriminate|]. unfold isdigit in E.
  apply all_digits_no_dot in E. congruence.
Qed.

Lemma get_num_no_builtin (self : HashVer) (V : string) (e : builtin) :
  get_num self V <> Raise (Builtin e).
Proof.
  unfold get_num.
  destruct (vpc <- parse_components V;;
            (if negb (Nat.eqb (List.length (bits_per_component self))
                              (List.length vpc))
             then Raise (HashVerException
                           (msg_count (count_text V (bits_per_component self))))
             else accumulate (combine vpc (bits_per_component self)) 0 false))
    as [n|[b|m]]; simpl; discriminate.
Qed.

Lemma get_version_str_no_builtin (self : HashVer) (x : Z) (e : builtin) :
  get_version_str self x <> Raise (Builtin e).
Proof.
  intros H. unfold get_version_str in H.
  destruct (extract (rev (bits_per_component self)) x []) as [[m cs]|[b|msg]];
    simpl in H; try discriminate.
  destruct (negb (m =? 0)); discriminate.
Qed.

Lemma convert_no_builtin (hob : HashVer) (ver : string) (e : builtin) :
  convert hob ver <> Raise (Builtin e).
Proof.
  unfold convert. destruct (isdigit ver) eqn:Hd.
  - destruct (isdigit_py_int ver Hd) as (n & _ & Hn). rewrite Hn. simpl.
    apply get_version_str_no_builtin.
  - pose proof (get_num_no_builtin hob ver e) as H.
    destruct (get_num hob ver) as [n|e']; simpl; [discriminate|].
    intros E. apply H. congruence.
Qed.

Lemma convert_all_cases (hob : HashVer) (args : list string) :
  (exists out, convert_all hob args = Done out tt
               /\ Forall2 (converted hob) args out)
  \/ (exists out done ver rest m,
        convert_all hob args = Abort out (Uncaught (HashVerException m))
        /\ args = (done ++ ver :: rest)%list
        /\ Forall2 (converted hob) done out
        /\ convert hob ver = Raise (HashVerException m)).
Proof.
  induction args as [|ver args IH]; simpl.
  - left. exists []. split; [reflexivity | constructor].
  - destruct (convert hob ver) as [text|[b|m]] eqn:Hc.
    + destruct IH as [(out & E & HF)|(out & done & v & rest & m & E & Ha & HF & Hv)];
        rewrite E; simpl.
      * left. eexists. split; [reflexivity|].
        constructor; [|assumption]. exists text. split; [assumption | reflexivity].
      * right. exists (Line (ver ++ " : " ++ text) :: out), (ver :: done), v, rest, m.
        repeat split; [subst; reflexivity | | assumption].
        constructor; [|assumption]. exists text. split; [assumption | reflexivity].
    + exfalso. apply (convert_no_builtin hob ver b). assumption.
    + right. exists [], [], ver, args, m.
      repeat split; [constructor | assumption].
Qed.

(** X10. The command line converts its arguments in order, one line each,
    and stops at the first argument whose conversion fails: the
    [HashVerException] is not an [Exception], so the handler does not catch
    it, and the run ends with it after the lines of the earlier arguments;
    the later arguments are not converted. *)
Theorem convert_all_stops_at_first_failure (hob : HashVer)
  (done rest : list string) (ver : string) (m : message) :
  Forall (fun v => exists text, convert hob v = Return text) done ->
  convert hob ver = Raise (HashVerException m) ->
  exists out,
    convert_all hob (done ++ ver :: rest)
    = Abort out (Uncaught (HashVerException m))
    /\ Forall2 (converted hob) done out.
Proof.
  intros Hdone Hver. induction Hdone as [|v done [text Hv] _ IH]; simpl.
  - rewrite Hver. exists []. split; [reflexivity | constructor].
  - rewrite Hv. destruct IH as (out & E & HF). rewrite E. simpl.
    eexists. split; [reflexivity|].
    constructor; [|assumption]. exists text. split; [assumption | reflexivity].
Qed.

Lemma convert_all_stops_at_first_failure_witness :
  exists out,
    convert_all (hv [8; 8; 8])
      (["1.2.3"%string; "65536"%string] ++ "1.x"%string :: ["7"%string])%list
    = Abort out (Uncaught (HashVerException
                             (msg_last "x" (ValueError_literal "x"))))
    /\ Forall2 (converted (hv [8; 8; 8])) ["1.2.3"%string; "65536"%string] out.
Proof.
  apply (convert_all_stops_at_first_failure (hv [8; 8; 8])).
  - repeat constructor; eexists; reflexivity.
  - reflexivity.
Defined.

Lemma int_each_Raise (cs : list string) (e : exn) :
  int_each cs = Raise e ->
  exists tok, In tok cs /\ e = Builtin (ValueError_literal tok).
Proof.
  induction cs as [|c cs IH]; simpl; intros H; [discriminate|].
  destruct (py_int_cases c) as [[v Hv]|Hr]; rewrite ?Hv, ?Hr in H; simpl in H.
  - destruct (int_each cs) as [l|e']; simpl in H; [discriminate|].
    destruct IH as (tok & Hin & E); [congruence|].
    exists tok. split; [right; assumption | congruence].
  - exists c. split; [left; reflexivity | congruence].
Qed.

Lemma init_Raise (bpc : string + list Z) (e : exn) :
  __init__ bpc = Raise e ->
  exists s tok, bpc = inl s /\ In tok (split "." s)
                /\ e = Builtin (ValueError_literal tok).
Proof.
  destruct bpc as [s|l]; simpl; intros H; [|discriminate].
  destruct (int_each (split "." s)) as [l|e'] eqn:E; simpl in H; [discriminate|].
  apply int_each_Raise in E. destruct E as (tok & Hin & ->).
  exists s, tok. repeat split; [assumption | congruence].
Qed.

Lemma Forall2_converted_lines (hob : HashVer) (args : list string)
  (out : list printed) :
  Forall2 (converted hob) args out ->
  Forall (fun p => exists text, p = Line text) out.
Proof.
  induction 1 as [|v p args out (text & _ & ->) _ IH]; constructor; eauto.
Qed.

Lemma main_with_cases (bpc : string + list Z) (args : list string) :
  Forall (fun p => exists text, p = Line text) (output (main_with bpc args))
  /\ (forall out e,
        main_with bpc args = Abort out e ->
        (exists tok, e = Uncaught (Builtin (ValueError_literal tok)) /\ out = [])
        \/ (exists m, e = Uncaught (HashVerException m))).
Proof.
  unfold main_with. destruct (__init__ bpc) as [hob|e0] eqn:E.
  - destruct (convert_all_cases hob args)
      as [(out & Ha & HF)|(out & done & v & rest & m & Ha & _ & HF & _)];
      rewrite Ha; simpl.
    + split; [eapply Forall2_converted_lines; eauto | discriminate].
    + split; [eapply Forall2_converted_lines; eauto|].
      intros out' e' H. inversion H; subst. right. eauto.
  - apply init_Raise in E. destruct E as (s & tok & _ & _ & ->). simpl.
    split; [constructor|].
    intros out e H. inversion H; subst. left. eauto.
Qed.

(** X11. On ASCII arguments [main] never prints the ERROR line of its
    handler: every printed line is the usage text or the result line of an
    argument, and a run that ends early ends with an uncaught exception,
    the [IndexError] of [--bpc] without a value, the [ValueError] of a
    malformed [--bpc] value (before any line is printed), or the
    [HashVerException] of the argument that failed. *)
Theorem main_never_prints_error (executable : string) (argv : list string) :
  Forall (fun p => exists text, p = Line text) (output (main executable argv))
  /\ (forall out e,
        main executable argv = Abort out e ->
        (e = IndexError /\ out = [])
        \/ (exists tok, e = Uncaught (Builtin (ValueError_literal tok))
                        /\ out = [])
        \/ (exists m, e = Uncaught (HashVerException m))).
Proof.
  unfold main. destruct (Nat.eqb (List.length argv) 1).
  - simpl. split; [repeat constructor; eauto | discriminate].
  - destruct (index "--bpc" argv) as [i|].
    + destruct (nth_error argv (i + 1)) as [bpc|].
      * destruct (main_with_cases (inl bpc) (tl (del i (del i argv))))
          as [Hout Hab].
        split; [assumption|]. intros out e H. right. eapply Hab; eauto.
      * simpl. split; [constructor|].
        intros out e H. inversion H; subst. left. split; reflexivity.
    + destruct (main_with_cases (inr default_bpc) (tl argv)) as [Hout Hab].
      split; [assumption|]. intros out e H. right. eapply Hab; eauto.
Qed.

Lemma main_never_prints_error_witness :
  (IndexError = IndexError /\ @nil printed = [])
  \/ (exists tok, IndexError = Uncaught (Builtin (ValueError_literal tok))
                  /\ @nil printed = [])
  \/ (exists m, IndexError = Uncaught (HashVerException m)).
Proof.
  apply (proj2 (main_never_prints_error "python"
                  ["hashver.py"%string; "1.2.3"%string; "--bpc"%string])
           [] IndexError).
  reflexivity.
Defined.

Lemma index_first (x : string) (pre rest : list string) :
  ~ In x pre -> index x (pre ++ x :: rest) = Some (List.length pre).
Proof.
  induction pre as [|y pre IH]; simpl; intros Hnot.
  - rewrite String.eqb_refl. reflexivity.
  - destruct (String.eqb_spec y x) as [E|_]; [exfalso; auto|].
    rewrite IH by auto. reflexivity.
Qed.

Lemma del_middle (pre rest : list string) (y : string) :
  del (List.length pre) (pre ++ y :: rest) = (pre ++ rest)%list.
Proof.
  induction pre as [|z pre IH]; simpl; [reflexivity | rewrite IH; reflexivity].
Qed.

Lemma nth_error_after (pre rest : list string) (x b : string) :
  nth_error (pre ++ x :: b :: rest) (List.length pre + 1) = Some b.
Proof.
  induction pre as [|z pre IH]; simpl; [reflexivity | exact IH].
Qed.

Lemma main_bpc_at (executable b : string) (pre post : list string) :
  ~ In "--bpc"%string pre ->
  main executable (pre ++ "--bpc"%string :: b :: post)
  = main_with (inl b) (tl (pre ++ post)).
Proof.
  intros Hnot. unfold main.
  assert (Hlen : Nat.eqb (List.length (pre ++ "--bpc"%string :: b :: post)) 1
                 = false).
  { apply Nat.eqb_neq. rewrite length_app. simpl. lia. }
  rewrite Hlen, (index_first _ pre _ Hnot), nth_error_after.
  rewrite !del_middle. reflexivity.
Qed.

(** X12. The first [--bpc] of the command line and the argument after it
    are taken out, wherever they stand after the program name: that
    argument is the profile, and the other arguments are converted in
    order.  So [--bpc b] may be given before, between or after the
    versions with the same result. *)
Theorem main_bpc_anywhere (executable prog b : string) (a post : list string) :
  prog <> "--bpc"%string ->
  ~ In "--bpc"%string a ->
  main executable (prog :: a ++ "--bpc"%string :: b :: post)
  = main_with (inl b) (a ++ post)
  /\ main executable (prog :: a ++ "--bpc"%string :: b :: post)
     = main executable (prog :: "--bpc"%string :: b :: a ++ post).
Proof.
  intros Hprog Ha.
  assert (H1 : main executable (prog :: a ++ "--bpc"%string :: b :: post)
               = main_with (inl b) (a ++ post)).
  { apply (main_bpc_at executable b (prog :: a) post).
    simpl. intros [E|E]; [congruence | auto]. }
  split; [exact H1|]. rewrite H1. symmetry.
  apply (main_bpc_at executable b [prog] (a ++ post)).
  simpl. intros [E|[]]. congruence.
Qed.

Lemma main_bpc_anywhere_witness :
  main "python" ("hashver.py"%string :: ["1.2.3"%string]
                 ++ "--bpc"%string :: "8.8.8"%string :: ["66051"%string])
  = main_with (inl "8.8.8"%string) (["1.2.3"%string] ++ ["66051"%string])
  /\ main "python" ("hashver.py"%string :: ["1.2.3"%string]
                    ++ "--bpc"%string :: "8.8.8"%string :: ["66051"%string])
     = main "python" ("hashver.py"%string :: "--bpc"%string :: "8.8.8"%string
                      :: ["1.2.3"%string] ++ ["66051"%string]).
Proof.
  apply (main_bpc_anywhere "python" "hashver.py" "8.8.8"
           ["1.2.3"%string] ["66051"%string]).
  - discriminate.
  - simpl. intros [E|[]]. discriminate.
Defined.

(** X13. A [--bpc] that is the last argument has no value: [main] ends
    with the uncaught [IndexError] before converting anything. *)
Theorem main_bpc_without_value (executable : string) (pre : list string) :
  pre <> [] ->
  ~ In "--bpc"%string pre ->
  main executable (pre ++ ["--bpc"%string]) = Abort [] IndexError.
Proof.
  intros Hne Hnot. unfold main.
  assert (Hlen : Nat.eqb (List.length (pre ++ ["--bpc"%string])) 1 = false).
  { apply Nat.eqb_neq. rewrite length_app. simpl.
    destruct pre; [congruence | simpl; lia]. }
  rewrite Hlen, (index_first _ pre _ Hnot).
  assert (Hnth : nth_error (pre ++ ["--bpc"%string]) (List.length pre + 1) = None).
  { apply nth_error_None. rewrite length_app. simpl. lia. }
  rewrite Hnth. reflexivity.
Qed.

Lemma main_bpc_without_value_witness :
  main "python" (["hashver.py"%string; "1.2.3"%string] ++ ["--bpc"%string])
  = Abort [] IndexError.
Proof.
  apply (main_bpc_without_value "python" ["hashver.py"%string; "1.2.3"%string]).
  - discriminate.
  - simpl. intros [E|[E|[]]]; discriminate.
Defined.

Lemma convert_decimal (hob : HashVer) (n : Z) :
  0 <= n -> convert hob (py_str n) = get_version_str hob n.
Proof.
  intros Hn. unfold convert. rewrite (isdigit_py_str n Hn), py_int_py_str.
  reflexivity.
Qed.

Lemma occurs_join_two (c1 c2 : string) (cs : list string) :
  occurs "." (join "." (c1 :: c2 :: cs)) = true.
Proof.
  unfold join. simpl. rewrite occurs_append. simpl.
  apply orb_true_r.
Qed.

(** X14. For a profile of at least two widths the two directions of the
    command line undo each other: the text printed for an integer that
    decodes is a version string that the command line encodes back to that
    integer's decimal text. *)
Theorem convert_inverse (hob : HashVer) (x : Z) (s : string) :
  (2 <= List.length (bits_per_component hob))%nat ->
  get_version_str hob x = Return s ->
  convert hob (py_str x) = Return s
  /\ convert hob s = Return (py_str x).
Proof.
  intros Hlen H.
  pose proof (get_version_str_range hob x s H) as Hx.
  split; [rewrite convert_decimal by apply Hx; exact H|].
  pose proof (get_version_str_Return hob x s H) as [Hws ->].
  assert (Hne : bits_per_component hob <> [])
    by (destruct (bits_per_component hob); [simpl in Hlen; lia | discriminate]).
  unfold convert. rewrite isdigit_dotted.
  - rewrite get_num_rendered_fields by assumption. reflexivity.
  - destruct (bits_per_component hob) as [|w1 [|w2 ws]];
      simpl in Hlen; try lia.
    simpl fields. simpl map. apply occurs_join_two.
Qed.

Lemma convert_inverse_witness :
  convert (hv [16; 16; 16]) (py_str 393220) = Return "0.6.4"%string
  /\ convert (hv [16; 16; 16]) "0.6.4" = Return (py_str 393220).
Proof.
  apply (convert_inverse (hv [16; 16; 16]) 393220 "0.6.4");
    [simpl; lia | reflexivity].
Defined.

(** * Properties of the example run *)

Lemma then_run_Done {A B : Type} (r : run A) (k : A -> run B)
  (out : list printed) (b : B) :
  then_run r k = Done out b ->
  exists o1 a o2, r = Done o1 a /\ k a = Done o2 b /\ out = (o1 ++ o2)%list.
Proof.
  unfold then_run. destruct r as [o1 a|o1 e]; [|discriminate].
  destruct (k a) as [o2 b'|o2 e] eqn:E; [|discriminate].
  intros H. inversion H; subst. exists o1, a, o2. auto.
Qed.

(** What the loop body does for one build: it passes, it fails an
    [assert], or it ends the run with the codec's exception. *)
Lemma check_build_cases (expected : string -> string) (hob : HashVer)
  (bpc_text ver : string) (prev : Z) (loc : locals) (self : HashVerTests) :
  let testing := Line ("Testing " ++ ver ++ " with bpc " ++ bpc_text) in
  (exists n,
      get_num hob ver = Return n
      /\ get_version_str hob n = Return (expected ver)
      /\ prev < n
      /\ check_build expected hob bpc_text ver prev loc self
         = Done [testing; Line "PASSED"]
             (n, ({| num := Some n; ver_str := Some (expected ver) |},
                  {| passed := passed self + 1; failed := failed self |})))
  \/ (exists n s,
        get_num hob ver = Return n
        /\ get_version_str hob n = Return s
        /\ (expected ver <> s \/ ~ prev < n)
        /\ check_build expected hob bpc_text ver prev loc self
           = Done [testing; FailedLine ver n s AssertionError]
               (prev, ({| num := Some n; ver_str := Some s |},
                       {| passed := passed self; failed := failed self + 1 |})))
  \/ (exists m,
        (get_num hob ver = Raise (HashVerException m)
         \/ exists n, get_num hob ver = Return n
                      /\ get_version_str hob n = Raise (HashVerException m))
        /\ check_build expected hob bpc_text ver prev loc self
           = Abort [testing] (Uncaught (HashVerException m))).
Proof.
  intros testing. unfold check_build. fold testing.
  destruct (get_num hob ver) as [n|[b|m]] eqn:Hn.
  - destruct (get_version_str hob n) as [s|[b|m]] eqn:Hs.
    + destruct (String.eqb_spec (expected ver) s) as [E|E]; simpl.
      * destruct (Z.ltb_spec prev n) as [Hlt|Hge]; simpl.
        -- left. exists n. subst s. auto.
        -- right. left. exists n, s. repeat split; auto. right. lia.
      * right. left. exists n, s. repeat split; auto.
    + exfalso. apply (get_version_str_no_builtin hob n b). assumption.
    + right. right. exists m. split; [right; eauto | reflexivity].
  - exfalso. apply (get_num_no_builtin hob ver b). assumption.
  - right. right. exists m. split; [left; reflexivity | reflexivity].
Qed.

(** X15. When the loop over the builds completes, every build was counted
    once, as passed or as failed: the two counters never decrease, their
    sum grows by the number of builds, and two lines were printed for each
    build. *)
Theorem compare_builds_counts (expected : string -> string) (hob : HashVer)
  (bpc_text : string) (builds : list string) (prev : Z) (loc loc' : locals)
  (self self' : HashVerTests) (out : list printed) :
  compare_builds expected hob bpc_text builds prev loc self
  = Done out (loc', self') ->
  passed self' + failed self'
  = passed self + failed self + Z.of_nat (List.length builds)
  /\ passed self <= passed self'
  /\ failed self <= failed self'
  /\ List.length out = (2 * List.length builds)%nat.
Proof.
  revert prev loc self out.
  induction builds as [|ver rest IH]; intros prev loc self out H.
  - simpl in H. inversion H; subst. simpl. lia.
  - simpl in H. apply then_run_Done in H.
    destruct H as (o1 & [p [l s]] & o2 & Hc & Hrest & ->).
    simpl in Hrest. apply IH in Hrest.
    destruct (check_build_cases expected hob bpc_text ver prev loc self)
      as [(n & _ & _ & _ & E)|[(n & t & _ & _ & _ & E)|(m & _ & E)]];
      rewrite E in Hc; inversion Hc; subst; simpl in *; lia.
Qed.

Lemma compare_builds_counts_witness :
  passed {| passed := 4; failed := 2 |} + failed {| passed := 4; failed := 2 |}
  = passed {| passed := 0; failed := 0 |} + failed {| passed := 0; failed := 0 |}
    + Z.of_nat (List.length semver_builds).
Proof.
  apply (compare_builds_counts (fun ver => ver) (hv [16; 16; 16])
           "[16, 16, 16]" semver_builds 0 unbound
           {| num := Some 8589934594; ver_str := Some "2.0.2"%string |}
           {| passed := 0; failed := 0 |} {| passed := 4; failed := 2 |}
           (output (compare_builds (fun ver => ver) (hv [16; 16; 16])
                      "[16, 16, 16]" semver_builds 0 unbound
                      {| passed := 0; failed := 0 |}))).
  vm_compute. reflexivity.
Defined.



Lemma decode_weighted (self : HashVer) (vs : list Z) :
  Forall2 fits vs (bits_per_component self) ->
  get_version_str self (weighted vs (bits_per_component self))
  = Return (join "." (map py_str vs)).
Proof.
  intros Hfit.
  pose proof (Forall2_fits_nonneg _ _ Hfit) as Hws.
  pose proof (weighted_bounds _ _ Hfit) as Hb.
  rewrite (get_version_str_closed self _ Hws).
  rewrite (high_bits_zero _ _ (proj1 Hb) (total_bits_nonneg _ Hws)).
  destruct (Z.ltb_spec (weighted vs (bits_per_component self))
                       (2 ^ total_bits (bits_per_component self))); [|lia].
  rewrite (fields_weighted _ _ Hfit). reflexivity.
Qed.

(** X17. The loop passes every build of a list of valid versions that are
    written canonically and stand in strictly ascending component-wise
    order above the values whose encoding is [prev]: it prints the two
    lines of a passing build for each, adds their number to [passed] and
    leaves [failed] as it is.  [expected] is assumed to strip the suffix of
    the last component, as both test methods do on their builds. *)
Theorem compare_builds_ascending (expected : string -> string) (hob : HashVer)
  (bpc_text : string) (builds : list string) (pv : list Z) (loc : locals)
  (self : HashVerTests) :
  Forall2 fits pv (bits_per_component hob) ->
  (forall V, In V builds -> expected V = strip_suffix V) ->
  ascending (bits_per_component hob) pv builds ->
  exists loc',
    compare_builds expected hob bpc_text builds
      (weighted pv (bits_per_component hob)) loc self
    = Done (passed_lines bpc_text builds)
        (loc', {| passed := passed self + Z.of_nat (List.length builds);
                  failed := failed self |}).
Proof.
  revert pv loc self.
  induction builds as [|V rest IH]; intros pv loc self Hpv Hexp Hasc.
  - exists loc. simpl. rewrite Z.add_0_r. destruct self; reflexivity.
  - destruct Hasc as (vs & Hp & Hfit & Hcan & Hlt & Hrest).
    assert (Hn : get_num hob V = Return (weighted vs (bits_per_component hob))).
    { apply get_num_closed; [assumption | eapply Forall2_length_eq; eauto|].
      apply Forall_tl. eapply Forall2_fits_nonneg; eauto. }
    assert (Hs : get_version_str hob (weighted vs (bits_per_component hob))
                 = Return (expected V)).
    { rewrite (decode_weighted hob vs Hfit), (Hexp V (or_introl eq_refl)).
      unfold strip_suffix. f_equal. f_equal.
      symmetry. apply canonical_components; [|assumption].
      apply parse_components_Return. assumption. }
    assert (Hord : weighted pv (bits_per_component hob)
                   < weighted vs (bits_per_component hob)).
    { unfold Z.lt. rewrite <- (weighted_compare pv vs _ Hpv Hfit).
      assumption. }
    destruct (IH vs
                {| num := Some (weighted vs (bits_per_component hob));
                   ver_str := Some (expected V) |}
                {| passed := passed self + 1; failed := failed self |}
                Hfit (fun W HW => Hexp W (or_intror HW)) Hrest) as (loc' & E).
    exists loc'. simpl. unfold check_build. rewrite Hn, Hs.
    rewrite String.eqb_refl. simpl.
    destruct (Z.ltb_spec (weighted pv (bits_per_component hob))
                         (weighted vs (bits_per_component hob))); [|lia].
    simpl. rewrite E. simpl. do 3 f_equal. lia.
Qed.

Lemma compare_builds_ascending_witness :
  exists loc',
    compare_builds (fun ver => hd EmptyString (split "-" ver))
      (hv [16; 16; 16]) "[16, 16, 16]" semver_builds 0 unbound
      {| passed := 0; failed := 0 |}
    = Done (passed_lines "[16, 16, 16]" semver_builds)
        (loc', {| passed := 6; failed := 0 |}).
Proof.
  apply (compare_builds_ascending (fun ver => hd EmptyString (split "-" ver))
           (hv [16; 16; 16]) "[16, 16, 16]" semver_builds [0; 0; 0] unbound
           {| passed := 0; failed := 0 |}).
  - repeat (constructor; try (vm_compute; split; congruence)).
  - intros V HV. simpl in HV.
    repeat (destruct HV as [<-|HV]; [reflexivity|]). destruct HV.
  - simpl.
    repeat (eexists; split; [reflexivity|];
            split; [repeat (constructor; try (vm_compute; split; congruence))|];
            split; [simpl; repeat (constructor; try reflexivity)|];
            split; [reflexivity|]).
    exact I.
Defined.

(** X18. The example run of the repository completes on the model: all 54
    checks pass (21 builds and 6 versions, each under two profiles), none
    fails, and the last line reports it. *)
Theorem tests_run_passes :
  tests_run
  = Done (passed_lines "[16, 16, 16, 16]" four_component_builds
          ++ passed_lines "8.8.16.8" four_component_builds
          ++ passed_lines "[16, 16, 16]" semver_builds
          ++ passed_lines "8.8.16" semver_builds
          ++ [Line "Passed: 54, Failed: 0"])%list
      {| passed := 54; failed := 0 |}.
Proof.
  vm_compute. reflexivity.
Qed.
